(** * gardendoctor-FastAPI: the two diagnosis endpoints of [app/main.py]

    A shallow embedding of [diagnose_crop] and [diagnose_by_url] together
    with the pydantic models of [app/models.py].  The handlers talk to four
    collaborators (the uploaded file, [requests], [PIL.Image] and
    [predict_disease]); every call to one of them is recorded in a log so
    that statements such as "the prediction function is not reached" can be
    read off the run. *)

From Stdlib Require Import List ZArith NArith Bool Lia String Ascii.
From Stdlib Require Import Floats.SpecFloat.
Import ListNotations.

Local Open Scope Z_scope.

(* ================================================================== *)
(** * Python values *)
(* ================================================================== *)

(** A Python [str] is a sequence of Unicode code points. *)
Definition codepoint := N.
Definition str := list codepoint.
Definition bytes := list Byte.byte.

(** ASCII literals of the source, as code point sequences. *)
Definition lit (s : string) : str :=
  List.map N_of_ascii (list_ascii_of_string s).
Arguments lit s%_string.

(** [s.startswith(p)] *)
Fixpoint startswith (s p : str) {struct p} : bool :=
  match p, s with
  | [], _ => true
  | _ :: _, [] => false
  | c :: p', d :: s' => N.eqb c d && startswith s' p'
  end.

(** [needle in hay] on strings: substring search. *)
Fixpoint contains (needle hay : str) : bool :=
  startswith hay needle ||
  match hay with
  | [] => false
  | _ :: rest => contains needle rest
  end.

(** [s.split(sep)] for a non-empty separator: leftmost, non-overlapping
    occurrences of [sep] cut the string; [skip] counts the characters of
    an occurrence still to be dropped and [cur] holds the current piece
    in reverse.  An empty separator raises [ValueError] in Python
    ([None] here). *)
Fixpoint split_go (sep : str) (skip : nat) (cur : str) (s : str) : list str :=
  match s with
  | [] => [rev cur]
  | c :: rest =>
      match skip with
      | S k => split_go sep k cur rest
      | O =>
          if startswith s sep
          then rev cur :: split_go sep (Nat.pred (List.length sep)) [] rest
          else split_go sep O (c :: cur) rest
      end
  end.

Definition split (s sep : str) : option (list str) :=
  match sep with
  | [] => None
  | _ => Some (split_go sep O [] s)
  end.

(** [l[-1]]: the last element, [IndexError] ([None]) on an empty list. *)
Fixpoint index_last {A} (l : list A) : option A :=
  match l with
  | [] => None
  | [x] => Some x
  | _ :: t => index_last t
  end.

(** Truthiness of an optional string: [None] and [""] are falsy. *)
Definition truthy (e : option str) : bool :=
  match e with
  | None => false
  | Some [] => false
  | Some (_ :: _) => true
  end.

(** Decimal [str(n)] of a non-negative integer, used by the message of
    [raise_for_status]. *)
Fixpoint digits_fuel (fuel : nat) (n : N) (acc : str) : str :=
  match fuel with
  | O => acc
  | S f =>
      let acc' := (48 + n mod 10)%N :: acc in
      if (n <? 10)%N then acc' else digits_fuel f (n / 10)%N acc'
  end.

Definition str_of_N (n : N) : str := digits_fuel (S (N.to_nat (N.log2 n))) n [].

(** Decimal [str(z)] of an integer. *)
Definition str_of_Z (z : Z) : str :=
  if z <? 0 then lit "-" ++ str_of_N (Z.abs_N z) else str_of_N (Z.abs_N z).

(* ================================================================== *)
(** * Python floats and [round] *)
(* ================================================================== *)

(** A Python [float] is an IEEE-754 binary64 number. *)
Definition float := spec_float.
Definition prec64 : Z := 53.
Definition emax64 : Z := 1024.
Definition valid_float (x : float) : bool := valid_binary prec64 emax64 x.

Definition float_of_Z (n : Z) : float := binary_normalize prec64 emax64 n 0 false.
Definition float_leb (x y : float) : bool := SFleb x y.

(** The integer nearest to [num * 2^e], ties to the even one. *)
Definition rint_half_even (num e : Z) : Z :=
  match e with
  | Zneg p =>
      let d := Z.pow_pos 2 p in
      let q := num / d in
      let r := num mod d in
      match 2 * r ?= d with
      | Lt => q
      | Gt => q + 1
      | Eq => if Z.even q then q else q + 1
      end
  | _ => num * 2 ^ e
  end.

(** [round(x, ndigits)] for a float and [ndigits >= 0].  CPython prints
    the exact binary value with [ndigits] decimals, correctly rounded with
    ties to even, and reads the decimal string back as the nearest
    binary64: the result is the float nearest to [k / 10^ndigits], where
    [k] is the integer nearest to [x * 10^ndigits].  Zeros, infinities and
    NaN round to themselves and the sign of [x] is kept. *)
Definition round (x : float) (ndigits : N) : float :=
  match x with
  | S754_finite s m e =>
      let scale := Z.pow 10 (Z.of_N ndigits) in
      match rint_half_even (Zpos m * scale) e with
      | Zpos k =>
          SFdiv prec64 emax64 (S754_finite s k 0)
                (S754_finite false (Z.to_pos scale) 0)
      | _ => S754_zero s
      end
  | _ => x
  end.

(* ================================================================== *)
(** * Exceptions and the call log *)
(* ================================================================== *)

(** The exceptions the handlers raise or catch.  [RequestException]
    stands for [requests.exceptions.RequestException] and its subclasses
    ([ConnectionError], [HTTPError], [MissingSchema], ...);
    [OtherException] is any other subclass of [Exception]. *)
Inductive Exn :=
| HTTPException (status_code : Z) (detail : str)
| RequestException (message : str)
| OtherException (message : str).

(** [str(e)], as interpolated by the f-strings of the handlers. *)
Definition exn_str (e : Exn) : str :=
  match e with
  | HTTPException c d => str_of_Z c ++ lit ": " ++ d
  | RequestException m => m
  | OtherException m => m
  end.

(** app/models.py *)
Record DiseaseInfo := {
  name : str;
  summary : option str;
  solution : option str
}.

Record DiagnosisResult := {
  filename : str;
  confidence : float;
  disease_info : DiseaseInfo
}.

Record AnalysisRequest := { image_url : str }.

(** FastAPI's [UploadFile]: the part's file name, its declared content
    type ([None] when the part has no Content-Type header) and the bytes
    [await file.read()] yields. *)
Record UploadFile := {
  upload_filename : str;
  content_type : option str;
  upload_body : bytes
}.

(** The part of [requests.Response] the handler looks at. *)
Record Response := {
  status_code : Z;
  reason : str;
  url : str;
  content : bytes
}.

(** What [predict_disease] hands back: [(disease_info, confidence, error)],
    each of which may be [None]. *)
Definition Prediction : Type := option DiseaseInfo * option float * option str.

(** The collaborators of a request.  [requests_get] either raises or
    returns a response; [Image_open] and [Image_verify] say whether
    [Image.open(BytesIO(b))] and [img.verify()] raise on the bytes [b]. *)
Record Collaborators := {
  requests_get : str -> Exn + Response;
  Image_open : bytes -> option Exn;
  Image_verify : bytes -> option Exn;
  predict_disease : str -> bytes -> Prediction
}.

Inductive Call :=
| Call_file_read (f : UploadFile)
| Call_requests_get (u : str)
| Call_Image_open (b : bytes)
| Call_Image_verify (b : bytes)
| Call_predict_disease (crop_name : str) (image_bytes : bytes).

Definition is_predict_call (c : Call) : bool :=
  match c with Call_predict_disease _ _ => true | _ => false end.

Definition is_image_check_call (c : Call) : bool :=
  match c with Call_Image_open _ | Call_Image_verify _ => true | _ => false end.

(** A handler body: it extends the log of calls made so far and either
    returns a value or raises. *)
Inductive Outcome (A : Type) :=
| Return (a : A)
| Raise (e : Exn).
Arguments Return {A} a.
Arguments Raise {A} e.

Definition Run (A : Type) : Type := list Call -> Outcome A * list Call.

Definition ret {A} (a : A) : Run A := fun log => (Return a, log).

Definition raise {A} (e : Exn) : Run A := fun log => (Raise e, log).

Definition bind {A B} (m : Run A) (k : A -> Run B) : Run B :=
  fun log =>
    match m log with
    | (Return a, log') => k a log'
    | (Raise e, log') => (Raise e, log')
    end.

(** [try: body / except ...: handler]; [handler e = None] when no
    [except] clause matches [e]. *)
Definition try_except {A} (body : Run A) (handler : Exn -> option (Run A)) : Run A :=
  fun log =>
    match body log with
    | (Return a, log') => (Return a, log')
    | (Raise e, log') =>
        match handler e with
        | Some h => h log'
        | None => (Raise e, log')
        end
    end.

(** A logged call to a collaborator that may raise. *)
Definition call {A} (c : Call) (r : Exn + A) : Run A :=
  fun log =>
    (match r with inl e => Raise e | inr a => Return a end, log ++ [c]).

Definition call_check (c : Call) (r : option Exn) : Run unit :=
  call c (match r with Some e => inl e | None => inr tt end).

Declare Scope run_scope.
Delimit Scope run_scope with run.
Notation "x <- m ;; k" := (bind m (fun x => k))
  (at level 61, m at next level, right associativity) : run_scope.
Notation "m ;;; k" := (bind m (fun _ => k))
  (at level 61, right associativity) : run_scope.
Local Open Scope run_scope.

(* ================================================================== *)
(** * Messages of app/main.py *)
(* ================================================================== *)

(** "image files only" (Korean text of line 42). *)
Definition msg_image_only : str :=
  [0xC774; 0xBBF8; 0xC9C0; 0x20; 0xD30C; 0xC77C; 0xB9CC; 0x20; 0xC5C5; 0xB85C;
   0xB4DC; 0xD560; 0x20; 0xC218; 0x20; 0xC788; 0xC2B5; 0xB2C8; 0xB2E4; 0x2E]%N.

(** The unsupported-crop marker (lines 51 and 101). *)
Definition marker_unsupported : str :=
  [0xC9C0; 0xC6D0; 0xB418; 0xC9C0; 0x20; 0xC54A; 0xB294]%N.

(** The model-file-missing marker (lines 53 and 103). *)
Definition marker_model_missing : str :=
  [0xBAA8; 0xB378; 0x20; 0xD30C; 0xC77C; 0xC774; 0x20; 0xC5C6; 0xC2B5; 0xB2C8;
   0xB2E4]%N.

(** The load-failure marker (lines 53 and 103). *)
Definition marker_load_failed : str :=
  [0xBD88; 0xB7EC; 0xC624; 0xB294; 0x20; 0xB370; 0x20; 0xC2E4; 0xD328]%N.

(** "cannot download the file from the image URL: " (line 87). *)
Definition msg_download_failed : str :=
  [0xC774; 0xBBF8; 0xC9C0; 0x20; 0x55; 0x52; 0x4C; 0xC5D0; 0xC11C; 0x20; 0xD30C;
   0xC77C; 0xC744; 0x20; 0xB2E4; 0xC6B4; 0xB85C; 0xB4DC; 0xD560; 0x20; 0xC218;
   0x20; 0xC5C6; 0xC2B5; 0xB2C8; 0xB2E4; 0x3A; 0x20]%N.

(** "not a valid image file: " (line 94). *)
Definition msg_invalid_image : str :=
  [0xC720; 0xD6A8; 0xD55C; 0x20; 0xC774; 0xBBF8; 0xC9C0; 0x20; 0xD30C; 0xC77C;
   0xC774; 0x20; 0xC544; 0xB2D9; 0xB2C8; 0xB2E4; 0x3A; 0x20]%N.

(* ================================================================== *)
(** * The handlers *)
(* ================================================================== *)

(** [Response.raise_for_status()] of the requests library: an [HTTPError]
    (a [RequestException]) for a 4xx or a 5xx status, nothing otherwise. *)
Definition raise_for_status (r : Response) : Run unit :=
  let c := status_code r in
  if (400 <=? c) && (c <? 500) then
    raise (RequestException
             (str_of_N (Z.to_N c) ++ lit " Client Error: " ++ reason r
              ++ lit " for url: " ++ url r))
  else if (500 <=? c) && (c <? 600) then
    raise (RequestException
             (str_of_N (Z.to_N c) ++ lit " Server Error: " ++ reason r
              ++ lit " for url: " ++ url r))
  else ret tt.

(** [DiagnosisResult(filename=.., confidence=round(confidence, 2),
    disease_info=..)]: [round(None, 2)] is a [TypeError] and pydantic
    refuses a missing [disease_info]. *)
Definition build_result (fname : str) (conf : option float)
    (info : option DiseaseInfo) : Run DiagnosisResult :=
  match conf with
  | None => raise (OtherException (lit "TypeError"))
  | Some c =>
      let rounded := round c 2 in
      match info with
      | None => raise (OtherException (lit "ValidationError"))
      | Some d =>
          ret {| filename := fname; confidence := rounded; disease_info := d |}
      end
  end.

(** POST /diagnose/{crop_name}   (main.py, lines 33-63) *)
Definition diagnose_crop (env : Collaborators) (crop_name : str)
    (file : UploadFile) : Run DiagnosisResult :=
  match content_type file with
  | None => raise (OtherException (lit "AttributeError"))
  | Some ct =>
  if negb (startswith ct (lit "image/")) then
    raise (HTTPException 400 msg_image_only)
  else
    image_bytes <- call (Call_file_read file) (inr (upload_body file)) ;;
    p <- call (Call_predict_disease crop_name image_bytes)
              (inr (predict_disease env crop_name image_bytes)) ;;
    let '(disease_info, confidence, error) := p in
    if truthy error then
      match error with
      | None => raise (OtherException (lit "TypeError"))
      | Some error =>
          if contains marker_unsupported error then
            raise (HTTPException 404 error)
          else if contains marker_model_missing error
                  || contains marker_load_failed error then
            raise (HTTPException 404 error)
          else
            raise (HTTPException 500 error)
      end
    else
      build_result (upload_filename file) confidence disease_info
  end.

(** POST /diagnose-by-url/{crop_name}   (main.py, lines 77-113) *)
Definition diagnose_by_url (env : Collaborators) (crop_name : str)
    (request : AnalysisRequest) : Run DiagnosisResult :=
  image_bytes <-
    try_except
      (response <- call (Call_requests_get (image_url request))
                        (requests_get env (image_url request)) ;;
       raise_for_status response ;;;
       ret (content response))
      (fun e =>
         match e with
         | RequestException _ =>
             Some (raise (HTTPException 400 (msg_download_failed ++ exn_str e)))
         | _ => None
         end) ;;
  try_except
    (call_check (Call_Image_open image_bytes) (Image_open env image_bytes) ;;;
     call_check (Call_Image_verify image_bytes) (Image_verify env image_bytes))
    (fun e => Some (raise (HTTPException 400 (msg_invalid_image ++ exn_str e)))) ;;;
  p <- call (Call_predict_disease crop_name image_bytes)
            (inr (predict_disease env crop_name image_bytes)) ;;
  let '(disease_info, confidence, error) := p in
  if truthy error then
    match error with
    | None => raise (OtherException (lit "TypeError"))
    | Some error =>
        if contains marker_unsupported error then
          raise (HTTPException 404 error)
        else if contains marker_model_missing error
                || contains marker_load_failed error then
          raise (HTTPException 404 error)
        else
          raise (HTTPException 500 error)
    end
  else
    match split (image_url request) (lit "/") with
    | None => raise (OtherException (lit "ValueError"))
    | Some pieces =>
        match index_last pieces with
        | None => raise (OtherException (lit "IndexError"))
        | Some fname => build_result fname confidence disease_info
        end
    end.

(* ================================================================== *)
(** * What the client sees *)
(* ================================================================== *)

(** FastAPI turns a returned model into a 200 response, an
    [HTTPException] into a response with its status code and its detail,
    and any other exception into a 500. *)
Inductive Reply :=
| Reply_ok (body : DiagnosisResult)
| Reply_error (status : Z) (detail : str)
| Reply_internal_error.

Definition reply_status (r : Reply) : Z :=
  match r with
  | Reply_ok _ => 200
  | Reply_error c _ => c
  | Reply_internal_error => 500
  end.

Definition respond (o : Outcome DiagnosisResult) : Reply :=
  match o with
  | Return r => Reply_ok r
  | Raise (HTTPException c d) => Reply_error c d
  | Raise _ => Reply_internal_error
  end.

Definition serve (h : Run DiagnosisResult) : Reply * list Call :=
  let '(o, log) := h [] in (respond o, log).

Definition post_diagnose (env : Collaborators) (crop_name : str)
    (file : UploadFile) : Reply * list Call :=
  serve (diagnose_crop env crop_name file).

Definition post_diagnose_by_url (env : Collaborators) (crop_name : str)
    (request : AnalysisRequest) : Reply * list Call :=
  serve (diagnose_by_url env crop_name request).

(** The status the error taxonomy assigns to a non-empty error string. *)
Definition error_status (error : str) : Z :=
  if contains marker_unsupported error
     || contains marker_model_missing error
     || contains marker_load_failed error
  then 404 else 500.

(** [needle] occurs in [hay] as a contiguous run of characters. *)
Definition substring (needle hay : str) : Prop :=
  exists pre suf, hay = pre ++ needle ++ suf.

(** The upload passes the content-type gate: its content type is a
    string that starts with "image/". *)
Definition upload_accepted (file : UploadFile) : Prop :=
  match content_type file with
  | Some ct => startswith ct (lit "image/") = true
  | None => False
  end.

(** The upload is turned down by the gate: its content type is a string
    that does not start with "image/". *)
Definition upload_refused (file : UploadFile) : Prop :=
  match content_type file with
  | Some ct => startswith ct (lit "image/") = false
  | None => False
  end.

(** [requests.get(u)] returns the response [r] and [raise_for_status]
    lets it through. *)
Definition fetch_ok (env : Collaborators) (u : str) (r : Response) : Prop :=
  requests_get env u = inr r /\ fst (raise_for_status r []) = Return tt.

(** The fetch of [u] raises a [RequestException] with message [m]: either
    [requests.get] raises it or [raise_for_status] does. *)
Definition fetch_raises (env : Collaborators) (u : str) (m : str) : Prop :=
  requests_get env u = inl (RequestException m) \/
  exists r, requests_get env u = inr r /\
            fst (raise_for_status r []) = Raise (RequestException m).

(** The bytes [b] pass both [Image.open] and [verify]. *)
Definition image_ok (env : Collaborators) (b : bytes) : bool :=
  match Image_open env b with
  | Some _ => false
  | None => match Image_verify env b with Some _ => false | None => true end
  end.

(** The exception the image check raises on [b], if any. *)
Definition image_error (env : Collaborators) (b : bytes) : option Exn :=
  match Image_open env b with
  | Some e => Some e
  | None => Image_verify env b
  end.

Definition calls_predict (log : list Call) : bool := existsb is_predict_call log.
Definition calls_image_check (log : list Call) : bool :=
  existsb is_image_check_call log.

(** The final piece of [u.split("/")]. *)
Definition last_segment (u : str) : option str :=
  match split u (lit "/") with
  | Some pieces => index_last pieces
  | None => None
  end.

(** A confidence that is a percentage: a binary64 value [c] with
    [0 <= c <= 100]. *)
Definition percent (c : float) : bool :=
  valid_float c && float_leb (float_of_Z 0) c && float_leb c (float_of_Z 100).

(** Modelled from the spec: [predict_disease] of [app/core/predict.py] is
    not among the sources; the spec treats it as the black box
    [predict(crop_name, image_bytes) -> (disease_info, confidence, error)]
    and states that a successful prediction returns a confidence in
    [0,100].  A prediction meets the contract when, its error being
    falsy, its confidence is such a percentage. *)
Definition prediction_contract (p : Prediction) : Prop :=
  match p with
  | (_, Some c, error) => truthy error = false -> percent c = true
  | (_, None, _) => True
  end.

(** The calls of a URL request that gets as far as the prediction. *)
Definition url_log (crop_name : str) (request : AnalysisRequest) (b : bytes)
  : list Call :=
  [Call_requests_get (image_url request); Call_Image_open b;
   Call_Image_verify b; Call_predict_disease crop_name b].

(** Every run of the URL handler: which calls were made, in which order,
    and what came back. *)
Inductive url_run (env : Collaborators) (crop_name : str)
    (request : AnalysisRequest) : Reply * list Call -> Prop :=
| url_run_fetch_crash e :
    requests_get env (image_url request) = inl e ->
    url_run env crop_name request
      (respond (Raise match e with
                      | RequestException m =>
                          HTTPException 400 (msg_download_failed ++ m)
                      | _ => e
                      end),
       [Call_requests_get (image_url request)])
| url_run_bad_status r m :
    requests_get env (image_url request) = inr r ->
    fst (raise_for_status r []) = Raise (RequestException m) ->
    url_run env crop_name request
      (Reply_error 400 (msg_download_failed ++ m),
       [Call_requests_get (image_url request)])
| url_run_bad_image r e :
    fetch_ok env (image_url request) r ->
    image_error env (content r) = Some e ->
    url_run env crop_name request
      (Reply_error 400 (msg_invalid_image ++ exn_str e),
       Call_requests_get (image_url request)
         :: Call_Image_open (content r)
         :: match Image_open env (content r) with
            | Some _ => []
            | None => [Call_Image_verify (content r)]
            end)
| url_run_predicted r reply :
    fetch_ok env (image_url request) r ->
    image_ok env (content r) = true ->
    (forall body, reply = Reply_ok body ->
       exists d c error,
         predict_disease env crop_name (content r) = (Some d, Some c, error) /\
         truthy error = false /\
         last_segment (image_url request) = Some (filename body) /\
         confidence body = round c 2 /\ disease_info body = d) ->
    reply_status reply <> 400 ->
    url_run env crop_name request
      (reply, url_log crop_name request (content r)).

(** [f] holds of every positive number up to [n]. *)
Fixpoint all_up_to (f : positive -> bool) (n : nat) : bool :=
  match n with
  | O => true
  | S n' => f (Pos.of_succ_nat n') && all_up_to f n'
  end.

(** The float nearest to [k / 100]. *)
Definition hundredth (k : positive) : float :=
  SFdiv prec64 emax64 (S754_finite false k 0) (S754_finite false 100 0).

(* ================================================================== *)
(** * Sample requests *)
(* ================================================================== *)

Definition demo_info : DiseaseInfo :=
  {| name := lit "powdery mildew";
     summary := Some (lit "white powder on the leaves");
     solution := None |}.

Definition demo_png : bytes := [Byte.x89; Byte.x50; Byte.x4e; Byte.x47].

Definition demo_url : str := lit "http://farm.example/img/leaf.png".

Definition demo_response (code : Z) (reason_phrase : string) : Response :=
  {| status_code := code; reason := lit reason_phrase; url := demo_url;
     content := demo_png |}.

Definition demo_env (got : Exn + Response) (opened verified : option Exn)
    (p : Prediction) : Collaborators :=
  {| requests_get := fun _ => got;
     Image_open := fun _ => opened;
     Image_verify := fun _ => verified;
     predict_disease := fun _ _ => p |}.

Definition demo_request : AnalysisRequest := {| image_url := demo_url |}.

Definition demo_upload (ct : string) : UploadFile :=
  {| upload_filename := lit "leaf.png"; content_type := Some (lit ct);
     upload_body := demo_png |}.

Definition demo_crop : str := lit "pumpkin".

(** An error text carrying the unsupported-crop marker. *)
Definition demo_error : str := marker_unsupported ++ lit " crop: durian".

(** 99.995 and 87.654321 as binary64. *)
Definition f99_995 : float := S754_finite false 7036522574045512 (-46).
Definition f87_654321 : float := S754_finite false 6168124490515841 (-46).
Definition f87_65 : float := S754_finite false 6167820427172250 (-46).

(** A URL that names a directory: it ends in a slash. *)
Definition demo_dir_request : AnalysisRequest :=
  {| image_url := lit "http://farm.example/img/" |}.

(* ================================================================== *)
(** * The shared tail of the handlers *)
(* ================================================================== *)

(** What lines 50-63 and 100-113 answer once [predict_disease] has
    returned [p], for the file name [fname] the handler has at hand. *)
Definition reply_after_prediction (fname : str) (p : Prediction) : Reply :=
  let '(d, c, e) := p in
  if truthy e then
    match e with
    | Some error => Reply_error (error_status error) error
    | None => Reply_internal_error
    end
  else
    match c, d with
    | Some c, Some d =>
        Reply_ok {| filename := fname; confidence := round c 2;
                    disease_info := d |}
    | _, _ => Reply_internal_error
    end.

(** Two floats are the same binary64 datum (zeros by sign, NaN as NaN). *)
Definition float_same (x y : float) : bool :=
  match x, y with
  | S754_zero s, S754_zero t => Bool.eqb s t
  | S754_infinity s, S754_infinity t => Bool.eqb s t
  | S754_nan, S754_nan => true
  | S754_finite s m e, S754_finite t n f =>
      Bool.eqb s t && Pos.eqb m n && Z.eqb e f
  | _, _ => false
  end.

(** A positive finite float. *)
Definition is_pos_finite (x : float) : bool :=
  match x with
  | S754_finite false _ _ => true
  | _ => false
  end.

(** [hundredth k] is a positive finite float not above [hundredth (k+1)]. *)
Definition hundredth_step (k : positive) : bool :=
  is_pos_finite (hundredth k) &&
  is_pos_finite (hundredth (Pos.succ k)) &&
  float_leb (hundredth k) (hundredth (Pos.succ k)).

(* ================================================================== *)
(** * Rounding to two decimals, in the spec's words *)
(* ================================================================== *)

(** A float that stands for a number: a zero or a finite float. *)
Definition is_finite (x : float) : bool :=
  match x with
  | S754_zero _ | S754_finite _ _ _ => true
  | _ => false
  end.

(** The absolute value of a finite float, counted in units of [2^-1074]
    (every binary64 number is a whole number of them). *)
Definition magnitude (x : float) : Z :=
  match x with
  | S754_finite _ m e => Zpos m * 2 ^ (e + 1074)
  | _ => 0
  end.

Definition float_sign (x : float) : bool :=
  match x with
  | S754_zero s | S754_infinity s | S754_finite s _ _ => s
  | S754_nan => false
  end.

(** [k] is the integer nearest to the fraction [n / d]; when [n / d] lies
    halfway between two integers, [k] is the even one. *)
Definition nearest_integer (k n d : Z) : Prop :=
  2 * Z.abs (k * d - n) <= d /\
  (2 * Z.abs (k * d - n) = d -> Z.even k = true).

(** The magnitude of [r] is a binary64 number nearest to [k / 100]: no
    finite binary64 number lies closer. *)
Definition nearest_binary64_to_hundredths (r : float) (k : Z) : Prop :=
  valid_float r = true /\
  is_finite r = true /\
  forall y,
    valid_float y = true -> is_finite y = true ->
    Z.abs (100 * magnitude r - k * 2 ^ 1074)
    <= Z.abs (100 * magnitude y - k * 2 ^ 1074).

(** In the spec's words: [r] is [c] rounded to 2 decimal places.  For a
    number [c], [r] has the sign of [c] and its magnitude is the binary64
    number nearest to [k / 100], where [k] is the integer nearest to
    [100 * |c|] (ties to even); infinities and NaN stay as they are. *)
Definition rounded_to_2_decimals (c r : float) : Prop :=
  match c with
  | S754_zero _ | S754_finite _ _ _ =>
      exists k : Z,
        nearest_integer k (100 * magnitude c) (2 ^ 1074) /\
        nearest_binary64_to_hundredths r k /\
        float_sign r = float_sign c
  | _ => r = c
  end.

(** The record [mrs] of a shifted mantissa places the fraction
    [num / den]: it equals [shr_m], or lies below, at or above the middle
    of [shr_m] and [shr_m + 1], as the round and sticky bits say. *)
Definition locates (mrs : shr_record) (num den : Z) : Prop :=
  match shr_r mrs, shr_s mrs with
  | false, false => num = shr_m mrs * den
  | false, true =>
      shr_m mrs * den < num /\ 2 * num < (2 * shr_m mrs + 1) * den
  | true, false => 2 * num = (2 * shr_m mrs + 1) * den
  | true, true =>
      (2 * shr_m mrs + 1) * den < 2 * num /\ num < (shr_m mrs + 1) * den
  end.

(** 0.125, 0.12 and 0.13 as binary64. *)
Definition f0_125 : float := S754_finite false 4503599627370496 (-55).
Definition f0_12 : float := S754_finite false 8646911284551352 (-56).
Definition f0_13 : float := S754_finite false 4683743612465316 (-55).

(* ================================================================== *)
(** * Proof automation *)
(* ================================================================== *)

Ltac unfold_run :=
  unfold post_diagnose, post_diagnose_by_url, serve, diagnose_crop,
    diagnose_by_url, build_result, try_except, bind, call_check, call, ret,
    raise, respond.

(* ================================================================== *)
(** * Sanity checks of the Python model *)
(* ================================================================== *)

Example round_2_675 :
  round (S754_finite false 6023564501608038 (-51)) 2
  = S754_finite false 6012305502539612 (-51).
Proof. vm_compute. reflexivity. Qed.

Example round_98_765 :
  round (S754_finite false 6949969018706985 (-46)) 2
  = S754_finite false 6950320862427873 (-46).
Proof. vm_compute. reflexivity. Qed.

Example round_0_125 :
  round (S754_finite false 4503599627370496 (-55)) 2
  = S754_finite false 8646911284551352 (-56).
Proof. vm_compute. reflexivity. Qed.

Example round_0_375 :
  round (S754_finite false 6755399441055744 (-54)) 2
  = S754_finite false 6845471433603154 (-54).
Proof. vm_compute. reflexivity. Qed.

Example round_99_995 :
  round (S754_finite false 7036522574045512 (-46)) 2 = float_of_Z 100.
Proof. vm_compute. reflexivity. Qed.

Example round_big :
  round (S754_finite false 6320987597432098 (-9)) 2
  = S754_finite false 6320987597432100 (-9).
Proof. vm_compute. reflexivity. Qed.

Example round_neg_small :
  round (S754_finite true 4611686018427388 (-62)) 2 = S754_zero true.
Proof. vm_compute. reflexivity. Qed.

Example round_0_005 :
  round (S754_finite false 5764607523034235 (-60)) 2
  = S754_finite false 5764607523034235 (-59).
Proof. vm_compute. reflexivity. Qed.

Example round_0_015 :
  round (S754_finite false 8646911284551352 (-59)) 2
  = S754_finite false 5764607523034235 (-59).
Proof. vm_compute. reflexivity. Qed.

Example round_max :
  round (S754_finite false 9007199254740991 971) 2
  = S754_finite false 9007199254740991 971.
Proof. vm_compute. reflexivity. Qed.

Example round_1e22 :
  round (S754_finite false 4768371582031250 21) 2
  = S754_finite false 4768371582031250 21.
Proof. vm_compute. reflexivity. Qed.

Example split_example :
  split (lit "http://h/a/b.jpg") (lit "/")
  = Some [lit "http:"; lit ""; lit "h"; lit "a"; lit "b.jpg"].
Proof. reflexivity. Qed.

Example split_multi :
  split (lit "a--b---c") (lit "--") = Some [lit "a"; lit "b"; lit "-c"].
Proof. reflexivity. Qed.

Example str_of_N_404 : str_of_N 404 = lit "404".
Proof. reflexivity. Qed.

(* ================================================================== *)
(** * Strings *)
(* ================================================================== *)

Lemma startswith_app (p suf : str) : startswith (p ++ suf) p = true.
Proof.
  induction p as [|c p IH]; simpl; [reflexivity|].
  now rewrite N.eqb_refl, IH.
Qed.

Lemma startswith_inv (s p : str) :
  startswith s p = true -> exists suf, s = p ++ suf.
Proof.
  revert s; induction p as [|c p IH]; intros s H.
  - now exists s.
  - destruct s as [|d s]; simpl in H; [discriminate|].
    apply andb_true_iff in H as [Hc Hs].
    apply N.eqb_eq in Hc; subst d.
    destruct (IH _ Hs) as [suf ->]. now exists suf.
Qed.

Lemma startswith_spec (s p : str) :
  startswith s p = true <-> exists suf, s = p ++ suf.
Proof.
  split; [apply startswith_inv|].
  intros [suf ->]; apply startswith_app.
Qed.

(** [in] is substring presence. *)
Lemma contains_spec (needle hay : str) :
  contains needle hay = true <-> substring needle hay.
Proof.
  unfold substring. induction hay as [|c hay IH].
  - simpl. rewrite orb_false_r. split.
    + intros H. apply startswith_inv in H as [suf H].
      exists [], suf. exact H.
    + intros [pre [suf H]].
      destruct pre; [|discriminate].
      destruct needle; [reflexivity|discriminate].
  - simpl. rewrite orb_true_iff. split.
    + intros [H|H].
      * apply startswith_inv in H as [suf H]. exists [], suf. exact H.
      * apply IH in H as [pre [suf ->]]. now exists (c :: pre), suf.
    + intros [pre [suf H]]. destruct pre as [|d pre].
      * left. simpl in H. rewrite H. apply startswith_app.
      * right. apply IH. injection H as _ ->. now exists pre, suf.
Qed.

Lemma contains_false (needle hay : str) :
  contains needle hay = false <-> ~ substring needle hay.
Proof.
  rewrite <- contains_spec. destruct (contains needle hay); split; intros H;
    try reflexivity; try discriminate; try (intros E; discriminate).
  exfalso; now apply H.
Qed.

Lemma lit_slash : lit "/" = [47%N].
Proof. reflexivity. Qed.

Lemma startswith_slash_cons (c : codepoint) (s : str) :
  startswith (c :: s) (lit "/") = (47 =? c)%N.
Proof. rewrite lit_slash. cbn [startswith]. apply andb_true_r. Qed.

Lemma contains_slash_cons (c : codepoint) (s : str) :
  contains (lit "/") (c :: s) = (47 =? c)%N || contains (lit "/") s.
Proof.
  cbn [contains]. now rewrite startswith_slash_cons.
Qed.

Lemma split_go_slash_tail (cur suf : str) :
  contains (lit "/") suf = false ->
  split_go (lit "/") 0 cur suf = [rev cur ++ suf].
Proof.
  revert cur. induction suf as [|c suf IH]; intros cur H.
  - simpl. now rewrite app_nil_r.
  - rewrite contains_slash_cons in H. apply orb_false_iff in H as [Hc Hs].
    cbn [split_go]. rewrite startswith_slash_cons, Hc.
    rewrite IH by assumption. simpl. now rewrite <- app_assoc.
Qed.

Lemma index_last_cons {A} (x : A) (l : list A) :
  l <> [] -> index_last (x :: l) = index_last l.
Proof. destruct l; [congruence|reflexivity]. Qed.

Lemma split_go_nonempty (sep : str) (k : nat) (cur s : str) :
  split_go sep k cur s <> [].
Proof.
  revert k cur. induction s as [|c s IH]; intros k cur; simpl.
  - discriminate.
  - destruct k; [|apply IH].
    destruct (startswith (c :: s) sep); [discriminate|apply IH].
Qed.

Lemma split_go_slash_last (cur pre suf : str) :
  contains (lit "/") suf = false ->
  index_last (split_go (lit "/") 0 cur (pre ++ lit "/" ++ suf)) = Some suf.
Proof.
  intros Hs. revert cur. induction pre as [|c pre IH]; intros cur.
  - rewrite lit_slash at 2. cbn [app split_go].
    rewrite startswith_slash_cons. cbn [N.eqb Pos.eqb].
    rewrite index_last_cons by apply split_go_nonempty.
    rewrite lit_slash at 1. cbn [List.length Nat.pred]. rewrite <- lit_slash.
    now rewrite split_go_slash_tail.
  - cbn [app split_go]. rewrite startswith_slash_cons.
    destruct (47 =? c)%N.
    + rewrite index_last_cons by apply split_go_nonempty.
      rewrite lit_slash at 1. cbn [List.length Nat.pred]. rewrite <- lit_slash.
      apply (IH []).
    + apply IH.
Qed.

Lemma split_slash (u : str) :
  split u (lit "/") = Some (split_go (lit "/") 0 [] u).
Proof. reflexivity. Qed.

(** The last piece of [u.split("/")] is what follows the last slash of
    [u], and [u] itself when it has no slash. *)
Lemma last_segment_after_slash (pre suf : str) :
  contains (lit "/") suf = false ->
  last_segment (pre ++ lit "/" ++ suf) = Some suf.
Proof.
  intros H. unfold last_segment. rewrite split_slash.
  now apply split_go_slash_last.
Qed.

Lemma last_segment_no_slash (u : str) :
  contains (lit "/") u = false -> last_segment u = Some u.
Proof.
  intros H. unfold last_segment. rewrite split_slash.
  now rewrite split_go_slash_tail.
Qed.

(* ================================================================== *)
(** * Running the handlers *)
(* ================================================================== *)

Lemma raise_for_status_log (r : Response) (log : list Call) :
  raise_for_status r log = (fst (raise_for_status r []), log).
Proof.
  unfold raise_for_status, raise, ret.
  destruct ((400 <=? status_code r) && (status_code r <? 500));
    [reflexivity|].
  destruct ((500 <=? status_code r) && (status_code r <? 600)); reflexivity.
Qed.

Lemma raise_for_status_cases (r : Response) :
  fst (raise_for_status r []) = Return tt \/
  exists m, fst (raise_for_status r []) = Raise (RequestException m).
Proof.
  unfold raise_for_status, raise, ret.
  destruct ((400 <=? status_code r) && (status_code r <? 500));
    [right; eexists; reflexivity|].
  destruct ((500 <=? status_code r) && (status_code r <? 600));
    [right; eexists; reflexivity|left; reflexivity].
Qed.

(** [raise_for_status] lets a response through exactly when its status is
    neither 4xx nor 5xx. *)
Lemma raise_for_status_passes (r : Response) :
  fst (raise_for_status r []) = Return tt <->
  (status_code r < 400 \/ 600 <= status_code r).
Proof.
  unfold raise_for_status, raise, ret.
  destruct (400 <=? status_code r) eqn:E1; destruct (status_code r <? 500) eqn:E2;
    destruct (500 <=? status_code r) eqn:E3; destruct (status_code r <? 600) eqn:E4;
    cbn [andb fst]; split; intros H; try reflexivity; try discriminate; lia.
Qed.

Lemma error_status_spec (error : str) :
  (error_status error = 404 /\
   (substring marker_unsupported error \/
    substring marker_model_missing error \/
    substring marker_load_failed error)) \/
  (error_status error = 500 /\
   ~ substring marker_unsupported error /\
   ~ substring marker_model_missing error /\
   ~ substring marker_load_failed error).
Proof.
  unfold error_status.
  destruct (contains marker_unsupported error) eqn:E1;
    [left; split; [reflexivity|left; now apply contains_spec]|].
  destruct (contains marker_model_missing error) eqn:E2;
    [left; split; [reflexivity|right; left; now apply contains_spec]|].
  destruct (contains marker_load_failed error) eqn:E3;
    [left; split; [reflexivity|right; right; now apply contains_spec]|].
  right. repeat split; try reflexivity; now apply contains_false.
Qed.

Section Handlers.

Variable env : Collaborators.
Variable crop_name : str.

Lemma upload_rejected (file : UploadFile) :
  upload_refused file ->
  post_diagnose env crop_name file = (Reply_error 400 msg_image_only, []).
Proof.
  unfold upload_refused. unfold_run.
  destruct (content_type file) as [ct|]; [|contradiction].
  intros H. now rewrite H.
Qed.

(** A part without a content type: [None.startswith] raises. *)
Lemma upload_untyped (file : UploadFile) :
  content_type file = None ->
  post_diagnose env crop_name file = (Reply_internal_error, []).
Proof. intros H. unfold_run. now rewrite H. Qed.

Lemma upload_gate_cases (file : UploadFile) :
  upload_accepted file \/ upload_refused file \/ content_type file = None.
Proof.
  unfold upload_accepted, upload_refused.
  destruct (content_type file) as [ct|]; [|now right; right].
  destruct (startswith ct (lit "image/")); [now left|now right; left].
Qed.

Lemma upload_error (file : UploadFile)
    (d : option DiseaseInfo) (c : option float) (error : str) :
  upload_accepted file ->
  predict_disease env crop_name (upload_body file) = (d, c, Some error) ->
  truthy (Some error) = true ->
  post_diagnose env crop_name file
  = (Reply_error (error_status error) error,
     [Call_file_read file; Call_predict_disease crop_name (upload_body file)]).
Proof.
  intros Ha Hp Ht. unfold upload_accepted in Ha. unfold_run.
  destruct (content_type file) as [ct|]; [|contradiction].
  rewrite Ha. cbn [negb app]. rewrite Hp, Ht. unfold error_status.
  destruct (contains marker_unsupported error); [reflexivity|].
  cbn [orb].
  destruct (contains marker_model_missing error || contains marker_load_failed error);
    reflexivity.
Qed.

Lemma upload_success (file : UploadFile)
    (d : DiseaseInfo) (c : float) (error : option str) :
  upload_accepted file ->
  predict_disease env crop_name (upload_body file) = (Some d, Some c, error) ->
  truthy error = false ->
  post_diagnose env crop_name file
  = (Reply_ok {| filename := upload_filename file;
                 confidence := round c 2;
                 disease_info := d |},
     [Call_file_read file; Call_predict_disease crop_name (upload_body file)]).
Proof.
  intros Ha Hp Ht. unfold upload_accepted in Ha. unfold_run.
  destruct (content_type file) as [ct|]; [|contradiction].
  rewrite Ha. cbn [negb app]. now rewrite Hp, Ht.
Qed.

Lemma upload_log (file : UploadFile) :
  upload_accepted file ->
  snd (post_diagnose env crop_name file)
  = [Call_file_read file; Call_predict_disease crop_name (upload_body file)].
Proof.
  intros Ha. unfold upload_accepted in Ha. unfold_run.
  destruct (content_type file) as [ct|]; [|contradiction].
  rewrite Ha. cbn [negb app].
  destruct (predict_disease env crop_name (upload_body file)) as [[d c] e].
  destruct (truthy e).
  - destruct e as [error|]; [|reflexivity].
    destruct (contains marker_unsupported error); [reflexivity|].
    destruct (contains marker_model_missing error || contains marker_load_failed error);
      reflexivity.
  - destruct c; [destruct d|]; reflexivity.
Qed.

Lemma upload_status (file : UploadFile) :
  upload_accepted file ->
  let st := reply_status (fst (post_diagnose env crop_name file)) in
  st = 200 \/ st = 404 \/ st = 500.
Proof.
  intros Ha. unfold upload_accepted in Ha. unfold_run.
  destruct (content_type file) as [ct|]; [|contradiction].
  rewrite Ha. cbn [negb app].
  destruct (predict_disease env crop_name (upload_body file)) as [[d c] e].
  destruct (truthy e).
  - destruct e as [error|]; [|cbn; auto].
    destruct (contains marker_unsupported error); [cbn; auto|].
    destruct (contains marker_model_missing error || contains marker_load_failed error);
      cbn; auto.
  - destruct c; [destruct d|]; cbn; auto.
Qed.

Lemma upload_ok_inv (file : UploadFile)
    (body : DiagnosisResult) :
  fst (post_diagnose env crop_name file) = Reply_ok body ->
  exists d c error,
    predict_disease env crop_name (upload_body file) = (Some d, Some c, error) /\
    truthy error = false /\
    body = {| filename := upload_filename file;
              confidence := round c 2;
              disease_info := d |}.
Proof.
  unfold_run.
  destruct (content_type file) as [ct|]; [|discriminate].
  destruct (negb (startswith ct (lit "image/"))); [discriminate|].
  cbn [app].
  destruct (predict_disease env crop_name (upload_body file)) as [[d c] e].
  destruct (truthy e) eqn:Ht.
  - destruct e as [error|]; [|discriminate].
    destruct (contains marker_unsupported error); [discriminate|].
    destruct (contains marker_model_missing error || contains marker_load_failed error);
      discriminate.
  - destruct c as [c|]; [|discriminate]. destruct d as [d|]; [|discriminate].
    cbn [fst]. intros H. injection H as <-. now exists d, c, e.
Qed.

Lemma url_fetch_raises
    (request : AnalysisRequest) (m : str) :
  fetch_raises env (image_url request) m ->
  post_diagnose_by_url env crop_name request
  = (Reply_error 400 (msg_download_failed ++ m),
     [Call_requests_get (image_url request)]).
Proof.
  intros [H|[r [H Hr]]]; unfold_run; rewrite H; cbn [app].
  - reflexivity.
  - rewrite raise_for_status_log, Hr. reflexivity.
Qed.

(** A fetch that raises a [RequestException] ends the request with 400
    before the image check and the prediction. *)
Lemma fetch_error_is_rejected
    (request : AnalysisRequest) (m : str) :
  fetch_raises env (image_url request) m ->
  reply_status (fst (post_diagnose_by_url env crop_name request)) = 400 /\
  calls_image_check (snd (post_diagnose_by_url env crop_name request)) = false /\
  calls_predict (snd (post_diagnose_by_url env crop_name request)) = false.
Proof.
  intros H. rewrite (url_fetch_raises request m H).
  repeat split.
Qed.

(** A 4xx or 5xx response is such a fetch error. *)
Lemma error_status_response_raises (u : str) (r : Response) :
  requests_get env u = inr r ->
  400 <= status_code r < 600 ->
  exists m, fetch_raises env u m.
Proof.
  intros Hg Hs.
  destruct (raise_for_status_cases r) as [Hr|[m Hr]].
  - apply raise_for_status_passes in Hr. lia.
  - exists m. right. now exists r.
Qed.

(** An exception of [requests.get] that is not a [RequestException] is
    not caught by the handler. *)
Lemma url_fetch_crashes
    (request : AnalysisRequest) (e : Exn) :
  requests_get env (image_url request) = inl e ->
  (forall m, e <> RequestException m) ->
  post_diagnose_by_url env crop_name request
  = (match e with
     | HTTPException c d => Reply_error c d
     | _ => Reply_internal_error
     end, [Call_requests_get (image_url request)]).
Proof.
  intros H Hne. unfold_run. rewrite H. cbn [app].
  destruct e as [c d|m|m]; try reflexivity.
  now elim (Hne m).
Qed.

Lemma url_invalid_image
    (request : AnalysisRequest) (r : Response) (e : Exn) :
  fetch_ok env (image_url request) r ->
  image_error env (content r) = Some e ->
  post_diagnose_by_url env crop_name request
  = (Reply_error 400 (msg_invalid_image ++ exn_str e),
     Call_requests_get (image_url request)
       :: Call_Image_open (content r)
       :: match Image_open env (content r) with
          | Some _ => []
          | None => [Call_Image_verify (content r)]
          end).
Proof.
  intros [H Hr] He. unfold image_error in He. unfold_run.
  rewrite H. cbn [app]. rewrite raise_for_status_log, Hr.
  destruct (Image_open env (content r)) as [e'|].
  - injection He as ->. reflexivity.
  - rewrite He. reflexivity.
Qed.

Lemma image_ok_error (b : bytes) :
  image_ok env b = false <-> exists e, image_error env b = Some e.
Proof.
  unfold image_ok, image_error.
  destruct (Image_open env b) as [e|].
  - split; [now exists e|reflexivity].
  - destruct (Image_verify env b) as [e|].
    + split; [now exists e|reflexivity].
    + split; [discriminate|intros [e He]; discriminate].
Qed.

Lemma image_ok_true (b : bytes) :
  image_ok env b = true ->
  Image_open env b = None /\ Image_verify env b = None.
Proof.
  unfold image_ok.
  destruct (Image_open env b); [discriminate|].
  destruct (Image_verify env b); [discriminate|now split].
Qed.

Lemma url_error
    (request : AnalysisRequest) (r : Response)
    (d : option DiseaseInfo) (c : option float) (error : str) :
  fetch_ok env (image_url request) r ->
  image_ok env (content r) = true ->
  predict_disease env crop_name (content r) = (d, c, Some error) ->
  truthy (Some error) = true ->
  post_diagnose_by_url env crop_name request
  = (Reply_error (error_status error) error,
     url_log crop_name request (content r)).
Proof.
  intros [H Hr] Hi Hp Ht. apply image_ok_true in Hi as [Ho Hv]. unfold_run.
  rewrite H. cbn [app]. rewrite raise_for_status_log, Hr, Ho. cbn [app].
  rewrite Hv. cbn [app]. rewrite Hp, Ht. unfold error_status.
  destruct (contains marker_unsupported error); [reflexivity|].
  cbn [orb].
  destruct (contains marker_model_missing error || contains marker_load_failed error);
    reflexivity.
Qed.

Lemma last_segment_total (u : str) : exists seg, last_segment u = Some seg.
Proof.
  unfold last_segment. rewrite split_slash.
  destruct (index_last (split_go (lit "/") 0 [] u)) as [seg|] eqn:E;
    [now exists seg|].
  exfalso. revert E. generalize (split_go_nonempty (lit "/") 0 [] u).
  generalize (split_go (lit "/") 0 [] u) as l.
  induction l as [|x l IH]; [congruence|].
  intros _. destruct l as [|y l]; [discriminate|].
  intros E. apply IH; [discriminate|exact E].
Qed.

Lemma url_success
    (request : AnalysisRequest) (r : Response)
    (d : DiseaseInfo) (c : float) (error : option str) (seg : str) :
  fetch_ok env (image_url request) r ->
  image_ok env (content r) = true ->
  predict_disease env crop_name (content r) = (Some d, Some c, error) ->
  truthy error = false ->
  last_segment (image_url request) = Some seg ->
  post_diagnose_by_url env crop_name request
  = (Reply_ok {| filename := seg;
                 confidence := round c 2;
                 disease_info := d |},
     url_log crop_name request (content r)).
Proof.
  intros [H Hr] Hi Hp Ht Hs. apply image_ok_true in Hi as [Ho Hv].
  unfold last_segment in Hs. unfold_run.
  rewrite H. cbn [app]. rewrite raise_for_status_log, Hr, Ho. cbn [app].
  rewrite Hv. cbn [app]. rewrite Hp, Ht.
  destruct (split (image_url request) (lit "/")) as [pieces|]; [|discriminate].
  now rewrite Hs.
Qed.

Lemma url_run_total
    (request : AnalysisRequest) :
  url_run env crop_name request (post_diagnose_by_url env crop_name request).
Proof.
  destruct (requests_get env (image_url request)) as [e|r] eqn:Hg.
  - (* requests.get raises *)
    destruct e as [c d|m|m].
    + rewrite (url_fetch_crashes request _ Hg) by discriminate.
      exact (url_run_fetch_crash env crop_name request _ Hg).
    + rewrite (url_fetch_raises request m) by (left; exact Hg).
      exact (url_run_fetch_crash env crop_name request _ Hg).
    + rewrite (url_fetch_crashes request _ Hg) by discriminate.
      exact (url_run_fetch_crash env crop_name request _ Hg).
  - destruct (raise_for_status_cases r) as [Hr|[m Hr]].
    2:{ rewrite (url_fetch_raises request m)
          by (right; exists r; split; assumption).
        now apply url_run_bad_status with r. }
    assert (Hf : fetch_ok env (image_url request) r) by (split; assumption).
    destruct (image_ok env (content r)) eqn:Hi.
    2:{ apply image_ok_error in Hi as [e He].
        rewrite (url_invalid_image request r e Hf He).
        now apply url_run_bad_image. }
    destruct (predict_disease env crop_name (content r)) as [[d c] error] eqn:Hp.
    destruct (last_segment_total (image_url request)) as [seg Hs].
    destruct (truthy error) eqn:Ht.
    + destruct error as [error|]; [|discriminate].
      rewrite (url_error request r d c error Hf Hi Hp Ht).
      apply url_run_predicted; try assumption.
      * intros body Hb; discriminate.
      * cbn. unfold error_status.
        destruct (contains marker_unsupported error || contains marker_model_missing error
                  || contains marker_load_failed error); discriminate.
    + destruct c as [c|]; [destruct d as [d|]|].
      * rewrite (url_success request r d c error seg Hf Hi Hp Ht Hs).
        apply url_run_predicted; try assumption; [|discriminate].
        intros body Hb. injection Hb as <-. now exists d, c, error.
      * (* pydantic refuses the missing disease_info *)
        replace (post_diagnose_by_url env crop_name request)
          with (Reply_internal_error, url_log crop_name request (content r)).
        { apply url_run_predicted; try assumption; [|discriminate].
          intros body Hb; discriminate. }
        symmetry. destruct Hf as [_ Hr']. apply image_ok_true in Hi as [Ho Hv].
        unfold last_segment in Hs. unfold_run.
        rewrite Hg. cbn [app]. rewrite raise_for_status_log, Hr', Ho. cbn [app].
        rewrite Hv. cbn [app]. rewrite Hp, Ht.
        destruct (split (image_url request) (lit "/")); [|discriminate].
        now rewrite Hs.
      * (* round(None, 2) *)
        replace (post_diagnose_by_url env crop_name request)
          with (Reply_internal_error, url_log crop_name request (content r)).
        { apply url_run_predicted; try assumption; [|discriminate].
          intros body Hb; discriminate. }
        symmetry. destruct Hf as [_ Hr']. apply image_ok_true in Hi as [Ho Hv].
        unfold last_segment in Hs. unfold_run.
        rewrite Hg. cbn [app]. rewrite raise_for_status_log, Hr', Ho. cbn [app].
        rewrite Hv. cbn [app]. rewrite Hp, Ht.
        destruct (split (image_url request) (lit "/")); [|discriminate].
        now rewrite Hs.
Qed.

Lemma url_ok_inv
    (request : AnalysisRequest) (body : DiagnosisResult) :
  fst (post_diagnose_by_url env crop_name request) = Reply_ok body ->
  exists r d c error,
    fetch_ok env (image_url request) r /\
    image_ok env (content r) = true /\
    predict_disease env crop_name (content r) = (Some d, Some c, error) /\
    truthy error = false /\
    last_segment (image_url request) = Some (filename body) /\
    confidence body = round c 2 /\ disease_info body = d.
Proof.
  intros Hb. pose proof (url_run_total request) as Hrun.
  destruct (post_diagnose_by_url env crop_name request) as [reply log].
  cbn [fst] in Hb. subst reply.
  inversion Hrun as [e Hg Hre|r m Hg Hr|r e Hf He|r reply Hf Hi Hinv Hst]; subst.
  - destruct e; discriminate.
  - destruct (Hinv body eq_refl) as [d [c [error H]]].
    exists r, d, c, error. tauto.
Qed.

End Handlers.

(* ================================================================== *)
(** * Rounding a percentage *)
(* ================================================================== *)

Lemma all_up_to_spec (f : positive -> bool) (n : nat) :
  all_up_to f n = true ->
  forall k, (Pos.to_nat k <= n)%nat -> f k = true.
Proof.
  induction n as [|n IH]; intros H k Hk.
  - pose proof (Pos2Nat.is_pos k). lia.
  - cbn [all_up_to] in H. apply andb_true_iff in H as [Hn Hrest].
    destruct (Nat.eq_dec (Pos.to_nat k) (S n)) as [E|E].
    + replace k with (Pos.of_succ_nat n); [exact Hn|].
      apply Pos2Nat.inj. rewrite SuccNat2Pos.id_succ. now symmetry.
    + apply IH; [exact Hrest|lia].
Qed.

Lemma hundredths_are_percent :
  all_up_to (fun k => percent (hundredth k)) (Z.to_nat 10000) = true.
Proof. vm_compute. reflexivity. Qed.

Lemma hundredth_percent (k : positive) :
  Zpos k <= 10000 -> percent (hundredth k) = true.
Proof.
  intros Hk. apply (all_up_to_spec _ _ hundredths_are_percent). lia.
Qed.

Lemma digits2_pos_bound (m : positive) :
  Zpos m < 2 ^ Zpos (digits2_pos m).
Proof.
  induction m as [m IH|m IH|]; cbn [digits2_pos].
  - rewrite Pos2Z.inj_succ, Z.pow_succ_r by lia. lia.
  - rewrite Pos2Z.inj_succ, Z.pow_succ_r by lia. lia.
  - reflexivity.
Qed.

Lemma bounded_mantissa (m : positive) (e : Z) :
  bounded prec64 emax64 m e = true -> Zpos m < 2 ^ 53.
Proof.
  unfold bounded, canonical_mantissa, fexp, emin, prec64, emax64.
  intros H. apply andb_true_iff in H as [H _]. apply Z.eqb_eq in H.
  pose proof (digits2_pos_bound m) as Hd.
  assert (Zpos (digits2_pos m) <= 53) by lia.
  apply Z.lt_le_trans with (1 := Hd).
  apply Z.pow_le_mono_r; lia.
Qed.

(** A valid float [m * 2^e] that compares [<= 100] has [e < 0] and
    [m <= 100 * 2^(-e)]. *)
Lemma le_hundred_mantissa (m : positive) (e : Z) :
  bounded prec64 emax64 m e = true ->
  float_leb (S754_finite false m e) (float_of_Z 100) = true ->
  exists p, e = Zneg p /\ Zpos m <= 100 * Z.pow_pos 2 p.
Proof.
  intros Hb Hle. apply bounded_mantissa in Hb.
  change (float_of_Z 100) with (S754_finite false 7036874417766400 (-46)) in Hle.
  unfold float_leb, SFleb, SFcompare in Hle.
  destruct (e ?= -46) eqn:Ec.
  - apply Z.compare_eq in Ec. subst e. exists 46%positive. split; [reflexivity|].
    assert (Hc : (m <= 7036874417766400)%positive).
    { unfold Pos.le, Pos.compare. intros E. rewrite E in Hle. discriminate. }
    assert (E100 : 100 * Z.pow_pos 2 46 = 7036874417766400)
      by (vm_compute; reflexivity).
    rewrite E100. apply Pos2Z.pos_le_pos. exact Hc.
  - rewrite Z.compare_lt_iff in Ec.
    destruct e as [|p|p]; try lia. exists p. split; [reflexivity|].
    rewrite Z.pow_pos_fold.
    assert (2 ^ 47 <= 2 ^ Zpos p) by (apply Z.pow_le_mono_r; lia).
    assert (E53 : 2 ^ 53 = 64 * 2 ^ 47) by (vm_compute; reflexivity).
    rewrite E53 in Hb. lia.
  - discriminate.
Qed.

Lemma rint_half_even_percent (m p : positive) :
  Zpos m <= 100 * Z.pow_pos 2 p ->
  0 <= rint_half_even (Zpos m * 100) (Zneg p) <= 10000.
Proof.
  intros Hm. unfold rint_half_even. cbv zeta.
  set (d := Z.pow_pos 2 p) in *.
  assert (Hd : 0 < d) by (unfold d; rewrite Z.pow_pos_fold; apply Z.pow_pos_nonneg; lia).
  pose proof (Z.div_mod (Zpos m * 100) d ltac:(lia)) as Hdm.
  pose proof (Z.mod_pos_bound (Zpos m * 100) d Hd) as Hr.
  set (q := Zpos m * 100 / d) in *. set (r := (Zpos m * 100) mod d) in *.
  assert (Hq0 : 0 <= q) by (apply Z.div_pos; lia).
  assert (Hq : q < 10000 \/ (q = 10000 /\ r = 0)) by nia.
  destruct (2 * r ?= d) eqn:Ec.
  - apply Z.compare_eq in Ec. destruct (Z.even q); lia.
  - lia.
  - rewrite Z.compare_gt_iff in Ec. lia.
Qed.

(** [rint_half_even] picks a nearest integer, the even one on a tie. *)
Lemma rint_half_even_nearest (num : Z) (p : positive) :
  2 * Z.abs (rint_half_even num (Zneg p) * Z.pow_pos 2 p - num)
  <= Z.pow_pos 2 p.
Proof.
  unfold rint_half_even. cbv zeta.
  set (d := Z.pow_pos 2 p).
  assert (Hd : 0 < d) by (unfold d; rewrite Z.pow_pos_fold; apply Z.pow_pos_nonneg; lia).
  pose proof (Z.div_mod num d ltac:(lia)) as Hdm.
  pose proof (Z.mod_pos_bound num d Hd) as Hr.
  set (q := num / d) in *. set (r := num mod d) in *.
  destruct (2 * r ?= d) eqn:Ec.
  - apply Z.compare_eq in Ec. destruct (Z.even q); nia.
  - rewrite Z.compare_lt_iff in Ec. nia.
  - rewrite Z.compare_gt_iff in Ec. nia.
Qed.

Lemma rint_half_even_tie (num : Z) (p : positive) :
  2 * (num mod Z.pow_pos 2 p) = Z.pow_pos 2 p ->
  Z.even (rint_half_even num (Zneg p)) = true.
Proof.
  intros Ht. unfold rint_half_even. cbv zeta. rewrite Ht, Z.compare_refl.
  destruct (Z.even (num / Z.pow_pos 2 p)) eqn:Ev; [exact Ev|].
  rewrite Z.add_1_r, Z.even_succ, <- Z.negb_even, Ev. reflexivity.
Qed.

(** Rounding a percentage to two decimals yields a percentage. *)
Lemma round_percent (c : float) :
  percent c = true -> percent (round c 2) = true.
Proof.
  intros H. destruct c as [s|s| |s m e]; try exact H.
  unfold percent in H. apply andb_true_iff in H as [H H100].
  apply andb_true_iff in H as [Hv H0].
  destruct s; [discriminate|].
  destruct (le_hundred_mantissa m e Hv H100) as [p [-> Hm]].
  pose proof (rint_half_even_percent m p Hm) as Hk.
  unfold round. change (10 ^ Z.of_N 2) with 100. cbv zeta.
  destruct (rint_half_even (Zpos m * 100) (Zneg p)) as [|k|k].
  - reflexivity.
  - apply hundredth_percent. lia.
  - lia.
Qed.

(* ================================================================== *)
(** * [round] rounds to two decimals *)
(* ================================================================== *)

Lemma pow_pos_positive (p : positive) : 0 < Z.pow_pos 2 p.
Proof. rewrite Z.pow_pos_fold. apply Z.pow_pos_nonneg; lia. Qed.

Lemma digits2_pos_lower (m : positive) :
  2 ^ (Zpos (digits2_pos m) - 1) <= Zpos m.
Proof.
  induction m as [m IH|m IH|]; cbn [digits2_pos].
  - rewrite Pos2Z.inj_succ.
    replace (Z.succ (Zpos (digits2_pos m)) - 1)
      with (Z.succ (Zpos (digits2_pos m) - 1)) by lia.
    rewrite Z.pow_succ_r by lia. lia.
  - rewrite Pos2Z.inj_succ.
    replace (Z.succ (Zpos (digits2_pos m)) - 1)
      with (Z.succ (Zpos (digits2_pos m) - 1)) by lia.
    rewrite Z.pow_succ_r by lia. lia.
  - cbn. lia.
Qed.

(** The exponent of a valid float is at least [emin], and above [emin]
    the mantissa has all its 53 bits. *)
Lemma bounded_normal (m : positive) (e : Z) :
  bounded prec64 emax64 m e = true ->
  -1074 <= e /\ (-1074 < e -> 2 ^ 52 <= Zpos m).
Proof.
  unfold bounded, canonical_mantissa, fexp, emin, prec64, emax64.
  intros H. apply andb_true_iff in H as [H _]. apply Z.eqb_eq in H.
  split; [lia|]. intros He.
  assert (Hd : Zpos (digits2_pos m) - 1 = 52) by lia.
  pose proof (digits2_pos_lower m) as Hl. now rewrite Hd in Hl.
Qed.

Lemma shr_1_locates (mrs : shr_record) (num den : Z) :
  0 <= shr_m mrs -> 0 < den ->
  locates mrs num den ->
  locates (shr_1 mrs) num (2 * den) /\ 0 <= shr_m (shr_1 mrs).
Proof.
  destruct mrs as [m r s]. unfold locates. cbn [shr_m shr_r shr_s].
  intros Hm Hd H.
  destruct m as [|[p|p|]|p]; try lia;
    destruct r, s; cbn [shr_1 shr_m shr_r shr_s orb] in *; nia.
Qed.

Lemma pow2_xO (p : positive) : 2 ^ Zpos p~0 = 2 ^ Zpos p * 2 ^ Zpos p.
Proof.
  rewrite (Pos2Z.inj_xO p). replace (2 * Zpos p) with (Zpos p + Zpos p) by lia.
  apply Z.pow_add_r; lia.
Qed.

Lemma pow2_xI (p : positive) : 2 ^ Zpos p~1 = 2 * (2 ^ Zpos p * 2 ^ Zpos p).
Proof.
  rewrite (Pos2Z.inj_xI p).
  replace (2 * Zpos p + 1) with (Z.succ (Zpos p + Zpos p)) by lia.
  rewrite Z.pow_succ_r by lia. now rewrite Z.pow_add_r by lia.
Qed.

Lemma iter_pos_shr_1_locates (p : positive) :
  forall (mrs : shr_record) (num den : Z),
    0 <= shr_m mrs -> 0 < den ->
    locates mrs num den ->
    locates (iter_pos shr_1 p mrs) num (den * 2 ^ Zpos p) /\
    0 <= shr_m (iter_pos shr_1 p mrs).
Proof.
  induction p as [p IH|p IH|]; intros mrs num den Hm Hd H; cbn [iter_pos].
  - destruct (shr_1_locates mrs num den Hm Hd H) as [H1 Hm1].
    destruct (IH _ num (2 * den) Hm1 ltac:(lia) H1) as [H2 Hm2].
    assert (Hp : 0 < 2 ^ Zpos p) by (apply Z.pow_pos_nonneg; lia).
    destruct (IH _ num (2 * den * 2 ^ Zpos p) Hm2 ltac:(nia) H2) as [H3 Hm3].
    split; [|exact Hm3].
    replace (den * 2 ^ Zpos p~1) with (2 * den * 2 ^ Zpos p * 2 ^ Zpos p);
      [exact H3|].
    rewrite pow2_xI. ring.
  - destruct (IH _ num den Hm Hd H) as [H2 Hm2].
    assert (Hp : 0 < 2 ^ Zpos p) by (apply Z.pow_pos_nonneg; lia).
    destruct (IH _ num (den * 2 ^ Zpos p) Hm2 ltac:(nia) H2) as [H3 Hm3].
    split; [|exact Hm3].
    replace (den * 2 ^ Zpos p~0) with (den * 2 ^ Zpos p * 2 ^ Zpos p);
      [exact H3|].
    rewrite pow2_xO. ring.
  - destruct (shr_1_locates mrs num den Hm Hd H) as [H1 Hm1].
    split; [|exact Hm1].
    replace (den * 2 ^ 1) with (2 * den) by (rewrite Z.pow_1_r; ring).
    exact H1.
Qed.

Lemma shr_1_m (mrs : shr_record) :
  0 <= shr_m mrs -> shr_m (shr_1 mrs) = shr_m mrs / 2.
Proof.
  destruct mrs as [m r s]. cbn [shr_m]. intros Hm.
  rewrite <- Z.div2_div.
  destruct m as [|[p|p|]|p]; try lia; reflexivity.
Qed.

Lemma iter_pos_shr_1_m (p : positive) :
  forall mrs : shr_record,
    0 <= shr_m mrs ->
    shr_m (iter_pos shr_1 p mrs) = shr_m mrs / 2 ^ Zpos p /\
    0 <= shr_m (iter_pos shr_1 p mrs).
Proof.
  assert (Hstep : forall mrs, 0 <= shr_m mrs -> 0 <= shr_m (shr_1 mrs)).
  { intros mrs Hm. rewrite shr_1_m by assumption. apply Z.div_pos; lia. }
  induction p as [p IH|p IH|]; intros mrs Hm; cbn [iter_pos].
  - assert (Hp : 0 < 2 ^ Zpos p) by (apply Z.pow_pos_nonneg; lia).
    destruct (IH (shr_1 mrs) (Hstep _ Hm)) as [E1 H1].
    destruct (IH _ H1) as [E2 H2].
    split; [|exact H2].
    rewrite E2, E1, shr_1_m, pow2_xI by assumption.
    rewrite !Z.div_div by lia. reflexivity.
  - assert (Hp : 0 < 2 ^ Zpos p) by (apply Z.pow_pos_nonneg; lia).
    destruct (IH mrs Hm) as [E1 H1].
    destruct (IH _ H1) as [E2 H2].
    split; [|exact H2].
    rewrite E2, E1, pow2_xO. rewrite Z.div_div by lia. reflexivity.
  - split; [|now apply Hstep].
    rewrite shr_1_m by assumption. now rewrite Z.pow_1_r.
Qed.

(** Shifting a located mantissa right by [n >= 0] bits. *)
Lemma shr_locates (mrs : shr_record) (e n num den : Z) :
  0 <= n -> 0 <= shr_m mrs -> 0 < den ->
  locates mrs num den ->
  locates (fst (shr mrs e n)) num (den * 2 ^ n) /\
  shr_m (fst (shr mrs e n)) = shr_m mrs / 2 ^ n /\
  snd (shr mrs e n) = e + n.
Proof.
  intros Hn Hm Hd H. destruct n as [|p|p]; try lia; cbn [shr fst snd].
  - rewrite Z.pow_0_r, Z.mul_1_r, Z.div_1_r, Z.add_0_r. auto.
  - destruct (iter_pos_shr_1_locates p mrs num den Hm Hd H) as [H1 _].
    destruct (iter_pos_shr_1_m p mrs Hm) as [H2 _]. auto.
Qed.

Lemma round_nearest_even_spec (mrs : shr_record) (num den : Z) :
  0 < den ->
  locates mrs num den ->
  let m := round_nearest_even (shr_m mrs) (loc_of_shr_record mrs) in
  2 * Z.abs (m * den - num) <= den /\
  (2 * Z.abs (m * den - num) = den -> Z.even m = true) /\
  shr_m mrs * den <= num /\
  (m = shr_m mrs \/ m = shr_m mrs + 1).
Proof.
  destruct mrs as [m r s]. unfold locates. cbn [shr_m shr_r shr_s].
  intros Hd H. destruct r, s; cbn [loc_of_shr_record round_nearest_even].
  - split; [lia|]. split; [lia|]. split; [lia|right; reflexivity].
  - destruct (Z.even m) eqn:Ev.
    + split; [lia|]. split; [intros _; exact Ev|].
      split; [lia|left; reflexivity].
    + split; [lia|]. split.
      * intros _. rewrite Z.add_1_r, Z.even_succ, <- Z.negb_even, Ev.
        reflexivity.
      * split; [lia|right; reflexivity].
  - split; [lia|]. split; [lia|]. split; [lia|left; reflexivity].
  - split; [lia|]. split; [lia|]. split; [lia|left; reflexivity].
Qed.

Lemma locates_scale (mrs : shr_record) (num den t : Z) :
  0 < t -> locates mrs num den -> locates mrs (num * t) (den * t).
Proof.
  destruct mrs as [m r s]. unfold locates. cbn [shr_m shr_r shr_s].
  intros Ht H. destruct r, s; nia.
Qed.

(** The quotient and the position of the remainder of a division by 100. *)
Lemma div_100_locates (n : Z) :
  0 <= n ->
  let '(q, r) := Z.div_eucl n 100 in
  q = n / 100 /\
  locates (shr_record_of_loc q (new_location 100 r)) n 100.
Proof.
  intros Hn. pose proof (Z_div_mod n 100 ltac:(lia)) as H.
  unfold Z.div. destruct (Z.div_eucl n 100) as [q r]. destruct H as [E Hr].
  split; [reflexivity|].
  unfold new_location. cbn [Z.even]. unfold new_location_even.
  destruct (r =? 0) eqn:E0.
  - apply Z.eqb_eq in E0. unfold locates. cbn. lia.
  - apply Z.eqb_neq in E0.
    destruct (2 * r ?= 100) eqn:Ec; unfold locates; cbn [shr_record_of_loc shr_m shr_r shr_s].
    + apply Z.compare_eq in Ec. lia.
    + rewrite Z.compare_lt_iff in Ec. lia.
    + rewrite Z.compare_gt_iff in Ec. lia.
Qed.

Lemma digits2_pos_unique (m : positive) (d : Z) :
  2 ^ (d - 1) <= Zpos m < 2 ^ d -> 1 <= d -> Zpos (digits2_pos m) = d.
Proof.
  intros [Hl Hu] Hd.
  pose proof (digits2_pos_bound m) as Hb.
  pose proof (digits2_pos_lower m) as Hlow.
  set (x := Zpos (digits2_pos m)) in *.
  assert (Hx : 1 <= x) by (unfold x; lia).
  destruct (Z.lt_trichotomy x d) as [Hlt|[Heq|Hgt]]; [|exact Heq|].
  - exfalso.
    assert (2 ^ x <= 2 ^ (d - 1)) by (apply Z.pow_le_mono_r; lia). lia.
  - exfalso.
    assert (2 ^ d <= 2 ^ (x - 1)) by (apply Z.pow_le_mono_r; lia). lia.
Qed.

Lemma shr_record_of_loc_m (m : Z) (l : location) :
  shr_m (shr_record_of_loc m l) = m.
Proof. destruct l as [|[| |]]; reflexivity. Qed.

(** What [binary_round_aux] makes of a located mantissa of at least 53
    bits: it drops the bits beyond the 53rd, rounds to nearest even and
    renormalises when the rounding carries into a 54th bit. *)
Lemma binary_round_aux_spec (s : bool) (q : positive) (e0 : Z) (l : location)
    (num den : Z) :
  2 ^ 52 <= Zpos q -> -1074 <= e0 -> 0 < den ->
  locates (shr_record_of_loc (Zpos q) l) num den ->
  exists (mrs : shr_record) (n : Z),
    0 <= n /\
    n = Zpos (digits2_pos q) - 53 /\
    2 ^ 52 <= shr_m mrs < 2 ^ 53 /\
    shr_m mrs = Zpos q / 2 ^ n /\
    locates mrs num (den * 2 ^ n) /\
    binary_round_aux 53 1024 s (Zpos q) e0 l
    = (let m := round_nearest_even (shr_m mrs) (loc_of_shr_record mrs) in
       if m <? 2 ^ 53 then
         if e0 + n <=? 971 then S754_finite s (Z.to_pos m) (e0 + n)
         else S754_infinity s
       else
         if e0 + n + 1 <=? 971 then S754_finite s (Z.to_pos (2 ^ 52)) (e0 + n + 1)
         else S754_infinity s).
Proof.
  intros Hq He0 Hden Hloc.
  pose proof (digits2_pos_bound q) as Hub.
  pose proof (digits2_pos_lower q) as Hlb.
  set (dq := Zpos (digits2_pos q)) in *.
  assert (Hdq : 53 <= dq).
  { destruct (Z.le_gt_cases 53 dq) as [H|H]; [exact H|exfalso].
    assert (2 ^ dq <= 2 ^ 52) by (apply Z.pow_le_mono_r; lia). lia. }
  set (n := dq - 53).
  assert (Hn : 0 <= n) by (unfold n; lia).
  assert (Hpn : 0 < 2 ^ n) by (apply Z.pow_pos_nonneg; lia).
  unfold binary_round_aux, shr_fexp.
  cbn [Zdigits2]. fold dq. unfold fexp, emin.
  replace (Z.max (dq + e0 - 53) (3 - 1024 - 53) - e0) with n
    by (unfold n; lia).
  destruct (shr_locates (shr_record_of_loc (Zpos q) l) e0 n num den Hn
              ltac:(rewrite shr_record_of_loc_m; lia) Hden Hloc)
    as [Hl1 [Hm1 He1]].
  rewrite shr_record_of_loc_m in Hm1.
  destruct (shr (shr_record_of_loc (Zpos q) l) e0 n) as [mrs e1].
  cbn [fst snd] in Hl1, Hm1, He1. subst e1.
  assert (Hm1b : 2 ^ 52 <= shr_m mrs < 2 ^ 53).
  { rewrite Hm1. split.
    - apply Z.div_le_lower_bound; [lia|].
      replace (2 ^ n * 2 ^ 52) with (2 ^ (dq - 1)); [exact Hlb|].
      rewrite <- Z.pow_add_r by lia. f_equal. unfold n. lia.
    - apply Z.div_lt_upper_bound; [lia|].
      replace (2 ^ n * 2 ^ 53) with (2 ^ dq); [exact Hub|].
      rewrite <- Z.pow_add_r by lia. f_equal. unfold n. lia. }
  exists mrs, n. split; [exact Hn|]. split; [reflexivity|].
  split; [exact Hm1b|]. split; [exact Hm1|]. split; [exact Hl1|].
  cbv zeta.
  destruct (round_nearest_even_spec mrs num (den * 2 ^ n) ltac:(nia) Hl1)
    as [_ [_ [_ Hmr]]].
  set (m := round_nearest_even (shr_m mrs) (loc_of_shr_record mrs)) in *.
  assert (Hmb : 2 ^ 52 <= m <= 2 ^ 53) by lia.
  destruct (m <? 2 ^ 53) eqn:Elt.
  - apply Z.ltb_lt in Elt.
    destruct m as [|mp|mp] eqn:Em; try lia.
    assert (Hd : Zpos (digits2_pos mp) = 53)
      by (apply digits2_pos_unique; [change (53 - 1) with 52; lia|lia]).
    cbn [Zdigits2 shr_record_of_loc]. rewrite Hd.
    replace (Z.max (53 + (e0 + n) - 53) (3 - 1024 - 53) - (e0 + n)) with 0 by lia.
    cbn [shr shr_m]. reflexivity.
  - apply Z.ltb_ge in Elt.
    assert (Em : m = 2 ^ 53) by lia.
    rewrite Em.
    change (2 ^ 53) with (Zpos (Z.to_pos (2 ^ 53))).
    cbn [Zdigits2 shr_record_of_loc].
    replace (Zpos (digits2_pos (Z.to_pos (2 ^ 53)))) with 54
      by (vm_compute; reflexivity).
    replace (Z.max (54 + (e0 + n) - 53) (3 - 1024 - 53) - (e0 + n)) with 1 by lia.
    cbn [shr iter_pos].
    replace (shr_m (shr_1 {| shr_m := Zpos (Z.to_pos (2 ^ 53)); shr_r := false; shr_s := false |}))
      with (Zpos (Z.to_pos (2 ^ 52))) by (vm_compute; reflexivity).
    reflexivity.
Qed.

(** The division by 100 that [round] performs, step by step. *)
Lemma sfdiv_100_spec (s : bool) (k : positive) :
  exists (mrs : shr_record) (e1 : Z),
    -59 <= e1 /\
    (Zpos (digits2_pos k) <= 60 -> e1 <= 1) /\
    (60 < Zpos (digits2_pos k) ->
     shr_m mrs = Zpos k / 100 / 2 ^ e1 /\
     0 <= e1 /\
     e1 = Zpos (digits2_pos (Z.to_pos (Zpos k / 100))) - 53) /\
    2 ^ 52 <= shr_m mrs < 2 ^ 53 /\
    locates mrs (Zpos k * 2 ^ 59) (100 * 2 ^ (e1 + 59)) /\
    SFdiv prec64 emax64 (S754_finite s k 0) (S754_finite false 100 0)
    = (let m := round_nearest_even (shr_m mrs) (loc_of_shr_record mrs) in
       if m <? 2 ^ 53 then
         if e1 <=? 971 then S754_finite s (Z.to_pos m) e1
         else S754_infinity s
       else
         if e1 + 1 <=? 971 then S754_finite s (Z.to_pos (2 ^ 52)) (e1 + 1)
         else S754_infinity s).
Proof.
  pose proof (digits2_pos_bound k) as Hub.
  pose proof (digits2_pos_lower k) as Hlb.
  unfold SFdiv, SFdiv_core_binary, prec64, emax64. cbv zeta.
  change (Zdigits2 100) with 7. cbn [Zdigits2].
  unfold fexp, emin. rewrite !Z.add_0_r, Z.sub_0_r, xorb_false_r.
  set (d1 := Zpos (digits2_pos k)) in *.
  assert (Hd1 : 1 <= d1) by (unfold d1; lia).
  set (e0 := Z.min (Z.max (d1 - 7 - 53) (3 - 1024 - 53)) 0).
  assert (He0 : e0 = Z.min (d1 - 60) 0) by (unfold e0; lia).
  assert (He0b : -59 <= e0 <= 0) by lia.
  set (n0 := match 0 - e0 with
             | 0 => Zpos k
             | Zpos _ => Z.shiftl (Zpos k) (0 - e0)
             | Zneg _ => 0
             end).
  assert (Hn0 : n0 = Zpos k * 2 ^ (- e0)).
  { unfold n0. destruct (0 - e0) as [|p|p] eqn:E; try lia.
    - replace (- e0) with 0 by lia. now rewrite Z.pow_0_r, Z.mul_1_r.
    - rewrite Z.shiftl_mul_pow2 by lia. f_equal. f_equal. lia. }
  clearbody n0.
  assert (Hn0l : 2 ^ 59 <= n0).
  { rewrite Hn0. destruct (Z.le_gt_cases d1 60) as [Hle|Hgt].
    - replace (- e0) with (60 - d1) by lia.
      replace (2 ^ 59) with (2 ^ (d1 - 1) * 2 ^ (60 - d1)).
      + apply Z.mul_le_mono_nonneg_r; [apply Z.pow_nonneg; lia|exact Hlb].
      + rewrite <- Z.pow_add_r by lia. f_equal. lia.
    - replace (- e0) with 0 by lia. rewrite Z.pow_0_r, Z.mul_1_r.
      apply Z.le_trans with (2 ^ (d1 - 1)); [|exact Hlb].
      apply Z.pow_le_mono_r; lia. }
  pose proof (div_100_locates n0 ltac:(lia)) as Hdiv.
  destruct (Z.div_eucl n0 100) as [q r]. destruct Hdiv as [Hq Hloc].
  assert (Hq52 : 2 ^ 52 <= q).
  { rewrite Hq. apply Z.div_le_lower_bound; [lia|].
    apply Z.le_trans with (2 ^ 59); [vm_compute; discriminate|exact Hn0l]. }
  destruct q as [|qp|qp]; try (exfalso; lia).
  assert (Hp59 : 0 < 2 ^ (e0 + 59)) by (apply Z.pow_pos_nonneg; lia).
  apply (locates_scale _ _ _ (2 ^ (e0 + 59)) Hp59) in Hloc.
  replace (n0 * 2 ^ (e0 + 59)) with (Zpos k * 2 ^ 59) in Hloc.
  2:{ rewrite Hn0, <- Z.mul_assoc, <- Z.pow_add_r by lia. f_equal. f_equal. lia. }
  destruct (binary_round_aux_spec s qp e0 (new_location 100 r)
              (Zpos k * 2 ^ 59) (100 * 2 ^ (e0 + 59))
              Hq52 ltac:(lia) ltac:(lia) Hloc)
    as [mrs [n [Hn [Hnd [Hmb [Hm [Hl Hres]]]]]]].
  exists mrs, (e0 + n).
  split; [lia|]. split.
  { intros Hle.
    assert (Hqlt : Zpos qp < 2 ^ 54).
    { rewrite Hq. apply Z.div_lt_upper_bound; [lia|].
      rewrite Hn0. replace (- e0) with (60 - d1) by lia.
      apply Z.lt_le_trans with (2 ^ d1 * 2 ^ (60 - d1)).
      - apply Z.mul_lt_mono_pos_r; [apply Z.pow_pos_nonneg; lia|exact Hub].
      - rewrite <- Z.pow_add_r by lia. replace (d1 + (60 - d1)) with 60 by lia.
        vm_compute. discriminate. }
    pose proof (digits2_pos_lower qp) as Hql.
    assert (Zpos (digits2_pos qp) <= 54).
    { destruct (Z.le_gt_cases (Zpos (digits2_pos qp)) 54) as [H|H]; [exact H|].
      exfalso.
      assert (2 ^ 54 <= 2 ^ (Zpos (digits2_pos qp) - 1))
        by (apply Z.pow_le_mono_r; lia). lia. }
    lia. }
  split.
  { intros Hgt. assert (E0 : e0 = 0) by lia.
    assert (En : n0 = Zpos k)
      by (rewrite Hn0, E0; change (- 0) with 0; rewrite Z.pow_0_r; lia).
    rewrite E0, Z.add_0_l. rewrite En in Hq. rewrite <- Hq. cbn [Z.to_pos].
    split; [exact Hm|]. split; [exact Hn|exact Hnd]. }
  split; [exact Hmb|]. split.
  { replace (100 * 2 ^ (e0 + n + 59)) with (100 * 2 ^ (e0 + 59) * 2 ^ n);
      [exact Hl|].
    rewrite <- Z.mul_assoc, <- Z.pow_add_r by lia. f_equal. f_equal. lia. }
  rewrite Hres. reflexivity.
Qed.

(** For a numerator of at most 60 bits the quotient by 100 is a normal
    float within half a unit in the last place of [k / 100], and within a
    quarter of it from above when it is a power of two. *)
Lemma sfdiv_100_near (s : bool) (k : positive) :
  Zpos (digits2_pos k) <= 60 ->
  exists (mp : positive) (e : Z),
    SFdiv prec64 emax64 (S754_finite s k 0) (S754_finite false 100 0)
    = S754_finite s mp e /\
    2 ^ 52 <= Zpos mp < 2 ^ 53 /\
    -59 <= e <= 2 /\
    2 * Z.abs (100 * Zpos mp * 2 ^ (e + 59) - Zpos k * 2 ^ 59)
    <= 100 * 2 ^ (e + 59) /\
    (Zpos mp = 2 ^ 52 ->
     4 * (100 * Zpos mp * 2 ^ (e + 59) - Zpos k * 2 ^ 59) <= 100 * 2 ^ (e + 59)).
Proof.
  intros Hd.
  destruct (sfdiv_100_spec s k)
    as [mrs [e1 [He1 [Hnear [_ [Hmb [Hloc Hres]]]]]]].
  specialize (Hnear Hd).
  assert (HP : 0 < 2 ^ (e1 + 59)) by (apply Z.pow_pos_nonneg; lia).
  assert (Hden : 0 < 100 * 2 ^ (e1 + 59)) by lia.
  destruct (round_nearest_even_spec mrs _ _ Hden Hloc)
    as [Hhalf [_ [Hlow Hmr]]].
  cbv zeta in Hres.
  set (m := round_nearest_even (shr_m mrs) (loc_of_shr_record mrs)) in *.
  set (P := 2 ^ (e1 + 59)) in *.
  destruct (m <? 2 ^ 53) eqn:Elt.
  - apply Z.ltb_lt in Elt.
    replace (e1 <=? 971) with true in Hres by (symmetry; apply Z.leb_le; lia).
    destruct m as [|mp|mp] eqn:Em; try lia.
    exists mp, e1. cbn [Z.to_pos] in Hres.
    split; [exact Hres|]. split; [lia|]. split; [lia|]. fold P.
    split; [rewrite <- Z.mul_assoc; lia|].
    intros E52. 
    assert (shr_m mrs = Zpos mp) by lia. nia.
  - apply Z.ltb_ge in Elt. assert (Em : m = 2 ^ 53) by lia.
    replace (e1 + 1 <=? 971) with true in Hres
      by (symmetry; apply Z.leb_le; lia).
    exists (Z.to_pos (2 ^ 52)), (e1 + 1).
    split; [exact Hres|]. split; [vm_compute; split; [discriminate|reflexivity]|].
    split; [lia|].
    replace (2 ^ (e1 + 1 + 59)) with (2 * P)
      by (unfold P; rewrite <- Z.pow_succ_r by lia; f_equal; lia).
    change (Zpos (Z.to_pos (2 ^ 52))) with (2 ^ 52).
    rewrite Em in Hhalf.
    assert (E53 : 2 ^ 53 = 2 * 2 ^ 52) by (vm_compute; reflexivity).
    rewrite E53 in Hhalf.
    split; [|intros _]; lia.
Qed.

(** A numerator that is 100 times a 53-bit float of non-negative exponent
    is divided exactly. *)
Lemma sfdiv_100_exact (s : bool) (m k : positive) (e : Z) :
  2 ^ 52 <= Zpos m < 2 ^ 53 -> 0 <= e <= 971 ->
  Zpos k = Zpos m * 100 * 2 ^ e ->
  60 < Zpos (digits2_pos k) ->
  SFdiv prec64 emax64 (S754_finite s k 0) (S754_finite false 100 0)
  = S754_finite s m e.
Proof.
  intros Hm He Hk Hd.
  destruct (sfdiv_100_spec s k)
    as [mrs [e1 [He1 [_ [Hfar [Hmb [Hloc Hres]]]]]]].
  destruct (Hfar Hd) as [Hsm [He1n He1d]].
  assert (Hpe : 0 < 2 ^ e) by (apply Z.pow_pos_nonneg; lia).
  assert (Hq : Zpos k / 100 = Zpos m * 2 ^ e).
  { rewrite Hk. replace (Zpos m * 100 * 2 ^ e) with (Zpos m * 2 ^ e * 100) by ring.
    apply Z.div_mul. lia. }
  rewrite Hq in Hsm, He1d.
  assert (Hdq : Zpos (digits2_pos (Z.to_pos (Zpos m * 2 ^ e))) = 53 + e).
  { apply digits2_pos_unique; [|lia].
    rewrite Z2Pos.id by nia.
    replace (53 + e - 1) with (52 + e) by lia.
    rewrite !Z.pow_add_r by lia. nia. }
  rewrite Hdq in He1d. assert (E1 : e1 = e) by lia. clear He1d. subst e1.
  rewrite Z.div_mul in Hsm by lia.
  assert (Hexact : shr_r mrs = false /\ shr_s mrs = false).
  { unfold locates in Hloc. rewrite Hsm in Hloc.
    assert (Hnum : Zpos k * 2 ^ 59 = Zpos m * (100 * 2 ^ (e + 59))).
    { rewrite Hk, (Z.pow_add_r 2 e 59) by lia. ring. }
    assert (Hden : 0 < 100 * 2 ^ (e + 59))
      by (assert (0 < 2 ^ (e + 59)) by (apply Z.pow_pos_nonneg; lia); lia).
    rewrite Hnum in Hloc.
    destruct (shr_r mrs), (shr_s mrs); try (split; reflexivity); exfalso; nia. }
  destruct Hexact as [Hr Hs].
  rewrite Hres. cbv zeta.
  destruct mrs as [mm r0 s0]. cbn [shr_m shr_r shr_s] in *. subst mm r0 s0.
  cbn [loc_of_shr_record round_nearest_even].
  replace (Zpos m <? 2 ^ 53) with true by (symmetry; apply Z.ltb_lt; lia).
  replace (e <=? 971) with true by (symmetry; apply Z.leb_le; lia).
  reflexivity.
Qed.

(** A normal float within half a unit in the last place of [K] (a
    quarter from above when it is a power of two) is as near to [K] as
    any binary64 number.  [K] is a hundred times the target, in units of
    [2^-1074]. *)
Lemma half_ulp_is_nearest (mp : positive) (e K : Z) (y : float) :
  2 ^ 52 <= Zpos mp < 2 ^ 53 -> -1074 <= e ->
  2 * Z.abs (100 * (Zpos mp * 2 ^ (e + 1074)) - K) <= 100 * 2 ^ (e + 1074) ->
  (Zpos mp = 2 ^ 52 ->
   4 * (100 * (Zpos mp * 2 ^ (e + 1074)) - K) <= 100 * 2 ^ (e + 1074)) ->
  valid_float y = true -> is_finite y = true ->
  Z.abs (100 * (Zpos mp * 2 ^ (e + 1074)) - K)
  <= Z.abs (100 * magnitude y - K).
Proof.
  intros Hm He Hhalf Hquarter Hv Hf.
  set (E := e + 1074) in *.
  assert (HE : 0 <= E) by (unfold E; lia).
  assert (HP : 0 < 2 ^ E) by (apply Z.pow_pos_nonneg; lia).
  set (P := 2 ^ E) in *.
  destruct y as [t|t| |t my ey]; try discriminate.
  - (* zero *)
    cbn [magnitude].
    assert (2 * P <= Zpos mp * P) by nia. lia.
  - cbn [magnitude]. unfold valid_float, valid_binary in Hv.
    pose proof (bounded_mantissa my ey Hv) as Hmy.
    destruct (bounded_normal my ey Hv) as [Hey _].
    set (Ey := ey + 1074) in *.
    assert (HEy : 0 <= Ey) by (unfold Ey; lia).
    destruct (Z.le_gt_cases E Ey) as [Hge|Hlt].
    + (* y is a multiple of the unit in the last place of r *)
      assert (Epow : 2 ^ Ey = 2 ^ (Ey - E) * P).
      { unfold P. rewrite <- Z.pow_add_r by lia. f_equal. lia. }
      assert (0 < 2 ^ (Ey - E)) by (apply Z.pow_pos_nonneg; lia).
      rewrite Epow.
      set (j := Zpos my * 2 ^ (Ey - E)).
      replace (Zpos my * (2 ^ (Ey - E) * P)) with (j * P) by (unfold j; ring).
      destruct (Z.eq_dec j (Zpos mp)) as [->|Hne]; [lia|].
      assert (P <= Z.abs (j * P - Zpos mp * P)) by nia.
      lia.
    + (* y lies in a lower binade *)
      assert (Epow : 2 * 2 ^ Ey <= P).
      { unfold P. rewrite <- Z.pow_succ_r by lia. apply Z.pow_le_mono_r; lia. }
      assert (0 < 2 ^ Ey) by (apply Z.pow_pos_nonneg; lia).
      set (Q := 2 ^ Ey) in *.
      assert (E53 : 2 ^ 53 = 2 * 2 ^ 52) by (vm_compute; reflexivity).
      assert (Hgap : 2 * (Zpos my * Q) + P <= 2 ^ 52 * P + (2 ^ 52 * P)).
      { assert (Zpos my + 1 <= 2 * 2 ^ 52) by lia.
        assert ((Zpos my + 1) * (2 * Q) <= 2 * 2 ^ 52 * P) by nia.
        nia. }
      destruct (Z.eq_dec (Zpos mp) (2 ^ 52)) as [Eq|Hne].
      * specialize (Hquarter Eq). rewrite Eq in *. lia.
      * assert (2 ^ 52 * P + P <= Zpos mp * P) by nia. lia.
Qed.

Lemma rint_half_even_spec (num : Z) (p : positive) :
  nearest_integer (rint_half_even num (Zneg p)) num (Z.pow_pos 2 p).
Proof.
  unfold nearest_integer, rint_half_even. cbv zeta.
  pose proof (pow_pos_positive p) as Hd.
  set (d := Z.pow_pos 2 p) in *.
  pose proof (Z.div_mod num d ltac:(lia)) as Hdm.
  pose proof (Z.mod_pos_bound num d Hd) as Hr.
  set (q := num / d) in *. set (r := num mod d) in *.
  destruct (2 * r ?= d) eqn:Ec.
  - apply Z.compare_eq in Ec. destruct (Z.even q) eqn:Ev.
    + split; [nia|]. intros _. exact Ev.
    + split; [nia|]. intros _.
      rewrite Z.add_1_r, Z.even_succ, <- Z.negb_even, Ev. reflexivity.
  - rewrite Z.compare_lt_iff in Ec. split; [nia|]. intros H. exfalso. nia.
  - rewrite Z.compare_gt_iff in Ec. split; [nia|]. intros H. exfalso. nia.
Qed.

Lemma nearest_integer_scale (k n d t : Z) :
  0 < t -> nearest_integer k n d -> nearest_integer k (n * t) (d * t).
Proof.
  unfold nearest_integer. intros Ht [H1 H2].
  replace (k * (d * t) - n * t) with ((k * d - n) * t) by ring.
  rewrite Z.abs_mul, (Z.abs_eq t) by lia.
  split; [nia|]. intros H. apply H2. nia.
Qed.

Lemma normal_is_valid (s : bool) (mp : positive) (e : Z) :
  2 ^ 52 <= Zpos mp < 2 ^ 53 -> -1074 <= e <= 971 ->
  valid_float (S754_finite s mp e) = true.
Proof.
  intros Hm He. unfold valid_float, valid_binary, bounded, canonical_mantissa.
  rewrite (digits2_pos_unique mp 53) by (change (53 - 1) with 52; lia).
  unfold fexp, emin, prec64, emax64.
  apply andb_true_iff. split; [apply Z.eqb_eq|apply Z.leb_le]; lia.
Qed.

Lemma bounded_exponent (m : positive) (e : Z) :
  bounded prec64 emax64 m e = true -> e <= 971.
Proof.
  unfold bounded, prec64, emax64. intros H.
  apply andb_true_iff in H as [_ H]. apply Z.leb_le in H. lia.
Qed.

(** [round(c, 2)] is [c] rounded to 2 decimal places. *)
Lemma round_is_rounding (c : float) :
  valid_float c = true -> rounded_to_2_decimals c (round c 2).
Proof.
  intros Hv. destruct c as [s|s| |s m e]; try reflexivity.
  - (* zeros *)
    exists 0. split; [|split; [|reflexivity]].
    + split; [cbn; lia|]. cbn. intros H. discriminate H.
    + split; [reflexivity|]. split; [reflexivity|].
      intros y _ _. cbn [round magnitude]. lia.
  - unfold valid_float, valid_binary in Hv.
    pose proof (bounded_mantissa m e Hv) as Hm53.
    destruct (bounded_normal m e Hv) as [Hemin Hnorm].
    pose proof (bounded_exponent m e Hv) as Hemax.
    set (k := rint_half_even (Zpos m * 100) e).
    assert (Hp1074 : 0 < 2 ^ 1074) by (apply Z.pow_pos_nonneg; lia).
    assert (Hk : nearest_integer k (100 * magnitude (S754_finite s m e))
                   (2 ^ 1074)).
    { cbn [magnitude]. unfold k. destruct e as [|p|p].
      - cbn [rint_half_even]. rewrite Z.pow_0_r, Z.mul_1_r.
        change (0 + 1074) with 1074.
        split; [replace (Zpos m * 100 * 2 ^ 1074 - 100 * (Zpos m * 2 ^ 1074))
                  with 0 by ring; cbn [Z.abs]; lia|].
        replace (Zpos m * 100 * 2 ^ 1074 - 100 * (Zpos m * 2 ^ 1074))
          with 0 by ring. cbn [Z.abs]. lia.
      - cbn [rint_half_even].
        rewrite (Z.pow_add_r 2 (Zpos p) 1074) by lia.
        replace (Zpos m * 100 * 2 ^ Zpos p * 2 ^ 1074
                 - 100 * (Zpos m * (2 ^ Zpos p * 2 ^ 1074))) with 0 by ring.
        cbn [Z.abs]. split; lia.
      - assert (Hpp : Zpos p <= 1074) by lia.
        assert (Ht : 0 < 2 ^ (Zneg p + 1074))
          by (apply Z.pow_pos_nonneg; lia).
        pose proof (nearest_integer_scale _ _ _ _ Ht
                      (rint_half_even_spec (Zpos m * 100) p)) as H.
        replace (Z.pow_pos 2 p * 2 ^ (Zneg p + 1074)) with (2 ^ 1074) in H.
        2:{ rewrite Z.pow_pos_fold, <- Z.pow_add_r by lia. f_equal. lia. }
        replace (100 * (Zpos m * 2 ^ (Zneg p + 1074)))
          with (Zpos m * 100 * 2 ^ (Zneg p + 1074)) by ring.
        exact H. }
    assert (Hk0 : 0 <= k).
    { destruct Hk as [H _]. cbn [magnitude] in H.
      assert (0 < 2 ^ (e + 1074)) by (apply Z.pow_pos_nonneg; lia). nia. }
    exists k. split; [exact Hk|].
    unfold round. change (10 ^ Z.of_N 2) with 100. cbv zeta. fold k.
    change (Z.to_pos 100) with 100%positive.
    destruct k as [|kp|kp] eqn:Ek; [| |lia].
    + (* the nearest hundredth is zero *)
      split; [|reflexivity].
      split; [reflexivity|]. split; [reflexivity|].
      intros y _ _. cbn [magnitude]. lia.
    + destruct (Z.le_gt_cases (Zpos (digits2_pos kp)) 60) as [Hnear|Hfar].
      * destruct (sfdiv_100_near s kp Hnear)
          as [mp [er [Hres [Hmp [Her [Hhalf Hquarter]]]]]].
        rewrite Hres. split; [|reflexivity].
        split; [apply normal_is_valid; lia|]. split; [reflexivity|].
        intros y Hvy Hfy. cbn [magnitude].
        assert (Ht : 0 < 2 ^ 1015) by (apply Z.pow_pos_nonneg; lia).
        assert (E1 : 2 ^ (er + 1074) = 2 ^ (er + 59) * 2 ^ 1015).
        { rewrite <- Z.pow_add_r by lia. f_equal. lia. }
        assert (E2 : 2 ^ 1074 = 2 ^ 59 * 2 ^ 1015).
        { rewrite <- Z.pow_add_r by lia. reflexivity. }
        assert (Hux : 100 * (Zpos mp * 2 ^ (er + 1074)) - Zpos kp * 2 ^ 1074
                      = (100 * Zpos mp * 2 ^ (er + 59) - Zpos kp * 2 ^ 59)
                        * 2 ^ 1015).
        { rewrite E1, E2. ring. }
        apply half_ulp_is_nearest; try assumption; try lia.
      * (* large values: [c] is an integer and rounds to itself *)
        assert (He0 : 0 <= e).
        { destruct e as [|p|p]; try lia. exfalso.
          pose proof (rint_half_even_spec (Zpos m * 100) p) as [H _].
          fold k in H. rewrite Ek in H.
          pose proof (pow_pos_positive p) as Hd.
          assert (Hd2 : 2 <= Z.pow_pos 2 p).
          { rewrite Z.pow_pos_fold. change 2 with (2 ^ 1) at 1.
            apply Z.pow_le_mono_r; lia. }
          assert (Hkb : Zpos kp <= 50 * Zpos m + 1) by nia.
          pose proof (digits2_pos_lower kp) as Hl.
          assert (2 ^ 60 <= 2 ^ (Zpos (digits2_pos kp) - 1))
            by (apply Z.pow_le_mono_r; lia).
          assert (E53 : 2 ^ 53 = 9007199254740992) by reflexivity.
          assert (E60 : 2 ^ 60 = 1152921504606846976) by reflexivity.
          lia. }
        assert (Hkv : Zpos kp = Zpos m * 100 * 2 ^ e).
        { unfold k in Ek. destruct e as [|p|p]; try lia; cbn [rint_half_even] in Ek;
            now rewrite Ek. }
        specialize (Hnorm ltac:(lia)).
        rewrite (sfdiv_100_exact s m kp e) by (try assumption; lia).
        split; [|reflexivity].
        split; [exact Hv|]. split; [reflexivity|].
        intros y _ _. cbn [magnitude].
        rewrite Hkv, (Z.pow_add_r 2 e 1074) by lia.
        replace (100 * (Zpos m * (2 ^ e * 2 ^ 1074))
                 - Zpos m * 100 * 2 ^ e * 2 ^ 1074) with 0 by ring.
        cbn [Z.abs]. lia.
Qed.

(** The relation tells roundings apart: the unrounded value is not its
    own rounding, and on the tie 0.125 the even hundredth 0.12 is one
    while the odd 0.13 is not. *)
Example unrounded_is_not_rounded :
  ~ rounded_to_2_decimals f87_654321 f87_654321.
Proof.
  intros [k [[Hk _] [[_ [_ Hn]] _]]].
  specialize (Hn f87_65 eq_refl eq_refl).
  cbn [magnitude f87_654321 f87_65] in Hk, Hn.
  change (-46 + 1074) with 1028 in *.
  assert (E1 : 2 ^ 1074 = 2 ^ 1028 * 2 ^ 46)
    by (rewrite <- Z.pow_add_r by lia; reflexivity).
  change (2 ^ 46) with 70368744177664 in E1.
  assert (HP : 0 < 2 ^ 1028) by (apply Z.pow_pos_nonneg; lia).
  rewrite E1 in Hk, Hn. set (P := 2 ^ 1028) in *.
  assert (Ek : k = 8765) by nia. subst k. nia.
Qed.

Example tie_goes_to_even :
  rounded_to_2_decimals f0_125 f0_12 /\ ~ rounded_to_2_decimals f0_125 f0_13.
Proof.
  split.
  - change f0_12 with (round f0_125 2). now apply round_is_rounding.
  - intros [k [[Hk He] [[_ [_ Hn]] _]]].
    specialize (Hn f0_12 eq_refl eq_refl).
    cbn [magnitude f0_125 f0_12 f0_13] in Hk, He, Hn.
    change (-55 + 1074) with 1019 in *. change (-56 + 1074) with 1018 in *.
    assert (E1 : 2 ^ 1074 = 2 ^ 1018 * 2 ^ 56)
      by (rewrite <- Z.pow_add_r by lia; reflexivity).
    change (2 ^ 56) with 72057594037927936 in E1.
    assert (E2 : 2 ^ 1019 = 2 ^ 1018 * 2 ^ 1)
      by (rewrite <- Z.pow_add_r by lia; reflexivity).
    change (2 ^ 1) with 2 in E2.
    assert (HP : 0 < 2 ^ 1018) by (apply Z.pow_pos_nonneg; lia).
    rewrite E1, E2 in Hk, He. rewrite E1, E2 in Hn. set (P := 2 ^ 1018) in *.
    assert (Ek : k = 12 \/ k = 13) by nia.
    destruct Ek as [-> | ->].
    + nia.
    + assert (H13 : Z.even 13 = true) by (apply He; nia). discriminate H13.
Qed.

(* ================================================================== *)
(** * The endpoints *)
(* ================================================================== *)

(** C1: a non-empty error string of the prediction collaborator is mapped
    by substring presence on both endpoints: 404 when it contains the
    unsupported-crop, the model-file-missing or the load-failure marker,
    500 otherwise; the detail of the response is the error string. *)
Theorem error_string_mapped_by_substring
    (env : Collaborators) (crop_name : str)
    (d : option DiseaseInfo) (c : option float) (error : str) :
  truthy (Some error) = true ->
  ((error_status error = 404 /\
    (substring marker_unsupported error \/
     substring marker_model_missing error \/
     substring marker_load_failed error)) \/
   (error_status error = 500 /\
    ~ substring marker_unsupported error /\
    ~ substring marker_model_missing error /\
    ~ substring marker_load_failed error)) /\
  (forall file,
     upload_accepted file ->
     predict_disease env crop_name (upload_body file) = (d, c, Some error) ->
     fst (post_diagnose env crop_name file)
     = Reply_error (error_status error) error) /\
  (forall request r,
     fetch_ok env (image_url request) r ->
     image_ok env (content r) = true ->
     predict_disease env crop_name (content r) = (d, c, Some error) ->
     fst (post_diagnose_by_url env crop_name request)
     = Reply_error (error_status error) error).
Proof.
  intros Ht. split; [apply error_status_spec|]. split.
  - intros file Ha Hp. now rewrite (upload_error env crop_name file d c error).
  - intros request r Hf Hi Hp.
    now rewrite (url_error env crop_name request r d c error).
Qed.

Lemma error_string_mapped_by_substring_witness :
  truthy (Some demo_error) = true /\
  fst (post_diagnose
         (demo_env (inr (demo_response 200 "OK")) None None
                   (None, None, Some demo_error))
         demo_crop (demo_upload "image/png"))
  = Reply_error 404 demo_error /\
  fst (post_diagnose_by_url
         (demo_env (inr (demo_response 200 "OK")) None None
                   (None, None, Some demo_error))
         demo_crop demo_request)
  = Reply_error 404 demo_error.
Proof.
  split; [reflexivity|].
  destruct (error_string_mapped_by_substring
              (demo_env (inr (demo_response 200 "OK")) None None
                        (None, None, Some demo_error))
              demo_crop None None demo_error eq_refl) as [_ [U V]].
  split.
  - apply (U (demo_upload "image/png")); reflexivity.
  - apply (V demo_request (demo_response 200 "OK"));
      [split; reflexivity|reflexivity|reflexivity].
Defined.

(** C2: evaluation at an upload whose file part carries no content type
    ([content_type] is [None]).  Line 41 calls [startswith] on it, which
    raises [AttributeError]: instead of the 400 of the gate the client
    gets a 500.  No collaborator is called.  (A content type that is a
    string not starting with "image/" does get the 400, see
    [upload_rejected].) *)
Theorem upload_without_content_type_is_500
    (env : Collaborators) (crop_name : str) (fname : str) (body : bytes) :
  post_diagnose env crop_name
    {| upload_filename := fname; content_type := None; upload_body := body |}
  = (Reply_internal_error, []) /\
  reply_status
    (fst (post_diagnose env crop_name
            {| upload_filename := fname; content_type := None;
               upload_body := body |})) = 500.
Proof. split; reflexivity. Qed.

(** C3: evaluation at a response that is not 2xx yet not an error for
    [raise_for_status] (304 Not Modified).  The handler does not stop at
    the fetch: with a body that fails the image check the check is reached
    (and answers 400 with the invalid-image message); with a body that
    passes it the prediction is called and the request succeeds. *)
Theorem not_modified_response_passes_fetch :
  let ok_env := demo_env (inr (demo_response 304 "Not Modified")) None None
                         (Some demo_info, Some f99_995, None) in
  let bad_env := demo_env (inr (demo_response 304 "Not Modified"))
                          (Some (OtherException (lit "cannot identify image file")))
                          None (Some demo_info, Some f99_995, None) in
  post_diagnose_by_url ok_env demo_crop demo_request
  = (Reply_ok {| filename := lit "leaf.png";
                 confidence := float_of_Z 100;
                 disease_info := demo_info |},
     [Call_requests_get demo_url; Call_Image_open demo_png;
      Call_Image_verify demo_png; Call_predict_disease demo_crop demo_png]) /\
  post_diagnose_by_url bad_env demo_crop demo_request
  = (Reply_error 400 (msg_invalid_image ++ lit "cannot identify image file"),
     [Call_requests_get demo_url; Call_Image_open demo_png]).
Proof. split; vm_compute; reflexivity. Qed.

(** C4: when the fetched bytes do not pass [Image.open] and [verify], the
    URL endpoint answers 400 and the prediction collaborator is not
    called; and in every run that does call it, the log reads fetch, open,
    verify, predict, on bytes that passed the check. *)
Theorem invalid_image_is_rejected
    (env : Collaborators) (crop_name : str) (request : AnalysisRequest) :
  (forall r,
     fetch_ok env (image_url request) r ->
     image_ok env (content r) = false ->
     exists e,
       image_error env (content r) = Some e /\
       post_diagnose_by_url env crop_name request
       = (Reply_error 400 (msg_invalid_image ++ exn_str e),
          Call_requests_get (image_url request)
            :: Call_Image_open (content r)
            :: match Image_open env (content r) with
               | Some _ => []
               | None => [Call_Image_verify (content r)]
               end) /\
       calls_predict (snd (post_diagnose_by_url env crop_name request)) = false) /\
  (calls_predict (snd (post_diagnose_by_url env crop_name request)) = true ->
   exists r,
     fetch_ok env (image_url request) r /\
     image_ok env (content r) = true /\
     snd (post_diagnose_by_url env crop_name request)
     = [Call_requests_get (image_url request); Call_Image_open (content r);
        Call_Image_verify (content r);
        Call_predict_disease crop_name (content r)]).
Proof.
  split.
  - intros r Hf Hi. apply image_ok_error in Hi as [e He]. exists e.
    split; [exact He|].
    rewrite (url_invalid_image env crop_name request r e Hf He).
    split; [reflexivity|].
    cbn [snd]. destruct (Image_open env (content r)); reflexivity.
  - pose proof (url_run_total env crop_name request) as Hrun.
    destruct (post_diagnose_by_url env crop_name request) as [reply log].
    cbn [snd].
    inversion Hrun as [e Hg Hre|r m Hg Hr|r e Hf He|r reply' Hf Hi Hinv Hst];
      subst; try discriminate.
    + destruct (Image_open env (content r)); discriminate.
    + intros _. now exists r.
Qed.

Lemma invalid_image_is_rejected_witness :
  let env := demo_env (inr (demo_response 200 "OK")) None
                      (Some (OtherException (lit "broken PNG file")))
                      (Some demo_info, Some f99_995, None) in
  fetch_ok env (image_url demo_request) (demo_response 200 "OK") /\
  image_ok env demo_png = false /\
  exists e,
    image_error env demo_png = Some e /\
    post_diagnose_by_url env demo_crop demo_request
    = (Reply_error 400 (msg_invalid_image ++ exn_str e),
       [Call_requests_get demo_url; Call_Image_open demo_png;
        Call_Image_verify demo_png]) /\
    calls_predict (snd (post_diagnose_by_url env demo_crop demo_request)) = false.
Proof.
  cbv zeta.
  split; [split; reflexivity|]. split; [reflexivity|].
  apply (proj1 (invalid_image_is_rejected
                  (demo_env (inr (demo_response 200 "OK")) None
                            (Some (OtherException (lit "broken PNG file")))
                            (Some demo_info, Some f99_995, None))
                  demo_crop demo_request) (demo_response 200 "OK"));
    [split; reflexivity|reflexivity].
Defined.

(** C5: when the prediction collaborator reports no error, the confidence
    of the returned [DiagnosisResult] is the collaborator's confidence [c]
    rounded to two decimals, on both endpoints: it has the sign of [c]
    and is the binary64 number nearest to [k / 100], where [k] is the
    integer nearest to [100 * |c|], the even one on a tie (infinities and
    NaN pass unchanged).  It is what [round(c, 2)] computes. *)
Theorem confidence_is_rounded_to_two_decimals
    (env : Collaborators) (crop_name : str)
    (d : DiseaseInfo) (c : float) (error : option str) :
  valid_float c = true ->
  truthy error = false ->
  (forall file,
     upload_accepted file ->
     predict_disease env crop_name (upload_body file) = (Some d, Some c, error) ->
     exists body,
       fst (post_diagnose env crop_name file) = Reply_ok body /\
       rounded_to_2_decimals c (confidence body) /\
       confidence body = round c 2) /\
  (forall request r,
     fetch_ok env (image_url request) r ->
     image_ok env (content r) = true ->
     predict_disease env crop_name (content r) = (Some d, Some c, error) ->
     exists body,
       fst (post_diagnose_by_url env crop_name request) = Reply_ok body /\
       rounded_to_2_decimals c (confidence body) /\
       confidence body = round c 2).
Proof.
  intros Hv Ht. pose proof (round_is_rounding c Hv) as Hr. split.
  - intros file Ha Hp.
    rewrite (upload_success env crop_name file d c error Ha Hp Ht).
    eexists. split; [reflexivity|]. split; [exact Hr|reflexivity].
  - intros request r Hf Hi Hp.
    destruct (last_segment_total (image_url request)) as [seg Hs].
    rewrite (url_success env crop_name request r d c error seg Hf Hi Hp Ht Hs).
    eexists. split; [reflexivity|]. split; [exact Hr|reflexivity].
Qed.

Lemma confidence_is_rounded_to_two_decimals_witness :
  let env := demo_env (inr (demo_response 200 "OK")) None None
                      (Some demo_info, Some f87_654321, None) in
  valid_float f87_654321 = true /\
  truthy None = false /\
  (exists body,
     fst (post_diagnose env demo_crop (demo_upload "image/png")) = Reply_ok body /\
     rounded_to_2_decimals f87_654321 (confidence body) /\
     confidence body = f87_65) /\
  (exists body,
     fst (post_diagnose_by_url env demo_crop demo_request) = Reply_ok body /\
     rounded_to_2_decimals f87_654321 (confidence body) /\
     confidence body = f87_65).
Proof.
  cbv zeta. split; [reflexivity|]. split; [reflexivity|].
  assert (E : round f87_654321 2 = f87_65) by (vm_compute; reflexivity).
  rewrite <- E.
  destruct (confidence_is_rounded_to_two_decimals
              (demo_env (inr (demo_response 200 "OK")) None None
                        (Some demo_info, Some f87_654321, None))
              demo_crop demo_info f87_654321 None eq_refl eq_refl) as [U V].
  split.
  - apply (U (demo_upload "image/png")); reflexivity.
  - apply (V demo_request (demo_response 200 "OK"));
      [split; reflexivity|reflexivity|reflexivity].
Defined.

(** C6: when the prediction collaborator keeps its contract (a successful
    prediction carries a confidence in [0,100]), the confidence of every
    successful response lies in [0,100], on both endpoints. *)
Theorem confidence_is_a_percentage
    (env : Collaborators) (crop_name : str) :
  (forall b, prediction_contract (predict_disease env crop_name b)) ->
  (forall file body,
     fst (post_diagnose env crop_name file) = Reply_ok body ->
     percent (confidence body) = true) /\
  (forall request body,
     fst (post_diagnose_by_url env crop_name request) = Reply_ok body ->
     percent (confidence body) = true).
Proof.
  intros Hc. split.
  - intros file body Hb.
    destruct (upload_ok_inv env crop_name file body Hb) as [d [c [e [Hp [Ht ->]]]]].
    cbn [confidence]. apply round_percent.
    specialize (Hc (upload_body file)). rewrite Hp in Hc. exact (Hc Ht).
  - intros request body Hb.
    destruct (url_ok_inv env crop_name request body Hb)
      as [r [d [c [e [_ [_ [Hp [Ht [_ [-> _]]]]]]]]]].
    apply round_percent.
    specialize (Hc (content r)). rewrite Hp in Hc. exact (Hc Ht).
Qed.

Lemma confidence_is_a_percentage_witness :
  let env := demo_env (inr (demo_response 200 "OK")) None None
                      (Some demo_info, Some f99_995, None) in
  (forall b, prediction_contract (predict_disease env demo_crop b)) /\
  (exists body,
     fst (post_diagnose env demo_crop (demo_upload "image/png")) = Reply_ok body /\
     confidence body = float_of_Z 100 /\
     percent (confidence body) = true) /\
  (exists body,
     fst (post_diagnose_by_url env demo_crop demo_request) = Reply_ok body /\
     confidence body = float_of_Z 100 /\
     percent (confidence body) = true).
Proof.
  cbv zeta.
  assert (Hc : forall b,
             prediction_contract
               (predict_disease
                  (demo_env (inr (demo_response 200 "OK")) None None
                            (Some demo_info, Some f99_995, None)) demo_crop b)).
  { intros b _. vm_compute. reflexivity. }
  split; [exact Hc|].
  destruct (confidence_is_a_percentage _ _ Hc) as [U V].
  split.
  - eexists. split; [vm_compute; reflexivity|]. split; [reflexivity|].
    apply (U (demo_upload "image/png")). vm_compute. reflexivity.
  - eexists. split; [vm_compute; reflexivity|]. split; [reflexivity|].
    apply (V demo_request). vm_compute. reflexivity.
Defined.

(** C7: on a successful URL request the filename of the result is the
    last piece of [image_url.split("/")]: the part of the URL after its
    last "/" (the whole URL if it has none). *)
Theorem url_filename_is_last_segment
    (env : Collaborators) (crop_name : str) (request : AnalysisRequest)
    (body : DiagnosisResult) :
  fst (post_diagnose_by_url env crop_name request) = Reply_ok body ->
  last_segment (image_url request) = Some (filename body) /\
  (forall pre suf,
     image_url request = pre ++ lit "/" ++ suf ->
     contains (lit "/") suf = false ->
     filename body = suf) /\
  (contains (lit "/") (image_url request) = false ->
   filename body = image_url request).
Proof.
  intros Hb.
  destruct (url_ok_inv env crop_name request body Hb)
    as [r [d [c [e [_ [_ [_ [_ [Hs _]]]]]]]]].
  split; [exact Hs|]. split.
  - intros pre suf Hu Hn. rewrite Hu in Hs.
    rewrite (last_segment_after_slash pre suf Hn) in Hs. now injection Hs.
  - intros Hn. rewrite (last_segment_no_slash _ Hn) in Hs. now injection Hs.
Qed.

Lemma url_filename_is_last_segment_witness :
  let env := demo_env (inr (demo_response 200 "OK")) None None
                      (Some demo_info, Some f99_995, None) in
  let body := {| filename := lit "leaf.png"; confidence := float_of_Z 100;
                 disease_info := demo_info |} in
  fst (post_diagnose_by_url env demo_crop demo_request) = Reply_ok body /\
  image_url demo_request = lit "http://farm.example/img" ++ lit "/" ++ lit "leaf.png" /\
  filename body = lit "leaf.png".
Proof.
  cbv zeta.
  assert (Hb : fst (post_diagnose_by_url
                      (demo_env (inr (demo_response 200 "OK")) None None
                                (Some demo_info, Some f99_995, None))
                      demo_crop demo_request)
               = Reply_ok {| filename := lit "leaf.png";
                             confidence := float_of_Z 100;
                             disease_info := demo_info |})
    by (vm_compute; reflexivity).
  split; [exact Hb|]. split; [reflexivity|].
  destruct (url_filename_is_last_segment _ _ _ _ Hb) as [_ [H _]].
  apply (H (lit "http://farm.example/img") (lit "leaf.png")); reflexivity.
Defined.

(** C8: once both handlers have reached the prediction call and the
    collaborator hands each the same non-empty error string, the upload
    endpoint and the URL endpoint answer with the same status code and the
    same detail. *)
Theorem endpoints_map_errors_alike
    (env : Collaborators) (crop_name : str) (file : UploadFile)
    (request : AnalysisRequest) (r : Response)
    (d d' : option DiseaseInfo) (c c' : option float) (error : str) :
  truthy (Some error) = true ->
  upload_accepted file ->
  fetch_ok env (image_url request) r ->
  image_ok env (content r) = true ->
  predict_disease env crop_name (upload_body file) = (d, c, Some error) ->
  predict_disease env crop_name (content r) = (d', c', Some error) ->
  fst (post_diagnose env crop_name file)
  = fst (post_diagnose_by_url env crop_name request) /\
  exists status,
    fst (post_diagnose env crop_name file) = Reply_error status error /\
    fst (post_diagnose_by_url env crop_name request) = Reply_error status error.
Proof.
  intros Ht Ha Hf Hi Hp Hp'.
  rewrite (upload_error env crop_name file d c error Ha Hp Ht).
  rewrite (url_error env crop_name request r d' c' error Hf Hi Hp' Ht).
  split; [reflexivity|]. exists (error_status error). now split.
Qed.

Lemma endpoints_map_errors_alike_witness :
  let error := lit "out of memory" in
  let env := demo_env (inr (demo_response 200 "OK")) None None
                      (None, None, Some error) in
  fst (post_diagnose env demo_crop (demo_upload "image/png"))
  = fst (post_diagnose_by_url env demo_crop demo_request) /\
  exists status,
    fst (post_diagnose env demo_crop (demo_upload "image/png"))
    = Reply_error status error /\
    fst (post_diagnose_by_url env demo_crop demo_request)
    = Reply_error status error.
Proof.
  cbv zeta.
  apply (endpoints_map_errors_alike
           (demo_env (inr (demo_response 200 "OK")) None None
                     (None, None, Some (lit "out of memory")))
           demo_crop (demo_upload "image/png") demo_request
           (demo_response 200 "OK") None None None None (lit "out of memory"));
    try reflexivity.
  split; reflexivity.
Defined.

(** C9, as the code has it: the failure branch is taken on a truthy
    error only.  When the collaborator returns [None] or the empty string
    as its error together with a disease info and a confidence that are
    present (not [None]), both handlers take the success path and answer
    200 with a [DiagnosisResult] built from those values: the disease
    info as it is, the confidence rounded to two decimals. *)
Theorem falsy_error_takes_success_path
    (env : Collaborators) (crop_name : str)
    (d : DiseaseInfo) (c : float) (error : option str) :
  valid_float c = true ->
  error = None \/ error = Some [] ->
  truthy error = false /\
  rounded_to_2_decimals c (round c 2) /\
  (forall file,
     upload_accepted file ->
     predict_disease env crop_name (upload_body file) = (Some d, Some c, error) ->
     post_diagnose env crop_name file
     = (Reply_ok {| filename := upload_filename file;
                    confidence := round c 2;
                    disease_info := d |},
        [Call_file_read file;
         Call_predict_disease crop_name (upload_body file)]) /\
     reply_status (fst (post_diagnose env crop_name file)) = 200) /\
  (forall request r,
     fetch_ok env (image_url request) r ->
     image_ok env (content r) = true ->
     predict_disease env crop_name (content r) = (Some d, Some c, error) ->
     exists seg,
       last_segment (image_url request) = Some seg /\
       post_diagnose_by_url env crop_name request
       = (Reply_ok {| filename := seg;
                      confidence := round c 2;
                      disease_info := d |},
          url_log crop_name request (content r)) /\
       reply_status (fst (post_diagnose_by_url env crop_name request)) = 200).
Proof.
  intros Hv He.
  assert (Ht : truthy error = false) by (destruct He as [->| ->]; reflexivity).
  split; [exact Ht|]. split; [now apply round_is_rounding|]. split.
  - intros file Ha Hp.
    rewrite (upload_success env crop_name file d c error Ha Hp Ht).
    split; reflexivity.
  - intros request r Hf Hi Hp.
    destruct (last_segment_total (image_url request)) as [seg Hs].
    exists seg. split; [exact Hs|].
    rewrite (url_success env crop_name request r d c error seg Hf Hi Hp Ht Hs).
    split; reflexivity.
Qed.

Lemma falsy_error_takes_success_path_witness :
  let env := demo_env (inr (demo_response 200 "OK")) None None
                      (Some demo_info, Some f87_654321, Some []) in
  valid_float f87_654321 = true /\
  (@None str = None \/ Some (@nil codepoint) = Some []) /\
  rounded_to_2_decimals f87_654321 f87_65 /\
  post_diagnose env demo_crop (demo_upload "image/png")
  = (Reply_ok {| filename := lit "leaf.png"; confidence := f87_65;
                 disease_info := demo_info |},
     [Call_file_read (demo_upload "image/png");
      Call_predict_disease demo_crop demo_png]) /\
  exists seg,
    last_segment demo_url = Some seg /\
    post_diagnose_by_url env demo_crop demo_request
    = (Reply_ok {| filename := seg; confidence := f87_65;
                   disease_info := demo_info |},
       url_log demo_crop demo_request demo_png) /\
    reply_status (fst (post_diagnose_by_url env demo_crop demo_request)) = 200.
Proof.
  cbv zeta. split; [reflexivity|]. split; [right; reflexivity|].
  assert (E : round f87_654321 2 = f87_65) by (vm_compute; reflexivity).
  rewrite <- E.
  destruct (falsy_error_takes_success_path
              (demo_env (inr (demo_response 200 "OK")) None None
                        (Some demo_info, Some f87_654321, Some []))
              demo_crop demo_info f87_654321 (Some []) eq_refl
              (or_intror eq_refl)) as [_ [R [U V]]].
  split; [exact R|]. split.
  - apply (U (demo_upload "image/png")); reflexivity.
  - apply (V demo_request (demo_response 200 "OK"));
      [split; reflexivity|reflexivity|reflexivity].
Defined.

(** C9, as the claim has it ("arbitrary disease_info and confidence"),
    fails: with the empty string as error and [None] as confidence both
    handlers call the collaborator and then crash on [round(None, 2)];
    the client gets a 500, not a 200. *)
Lemma falsy_error_without_confidence_is_500 :
  let env := demo_env (inr (demo_response 200 "OK")) None None
                      (Some demo_info, None, Some []) in
  truthy (Some []) = false /\
  predict_disease env demo_crop demo_png = (Some demo_info, None, Some []) /\
  post_diagnose env demo_crop (demo_upload "image/png")
  = (Reply_internal_error,
     [Call_file_read (demo_upload "image/png");
      Call_predict_disease demo_crop demo_png]) /\
  reply_status (fst (post_diagnose env demo_crop (demo_upload "image/png"))) = 500 /\
  post_diagnose_by_url env demo_crop demo_request
  = (Reply_internal_error, url_log demo_crop demo_request demo_png) /\
  reply_status (fst (post_diagnose_by_url env demo_crop demo_request)) = 500.
Proof. cbv zeta. repeat split. Qed.

(** C10: an upload whose content type starts with "image/" has its raw
    bytes passed to the prediction collaborator with no image check in
    between, and is never answered with 400, even when the bytes would
    fail the check; the URL endpoint answers the same bytes with 400
    without calling the collaborator. *)
Theorem upload_skips_image_validation
    (env : Collaborators) (crop_name : str) (file : UploadFile) :
  upload_accepted file ->
  snd (post_diagnose env crop_name file)
  = [Call_file_read file; Call_predict_disease crop_name (upload_body file)] /\
  calls_image_check (snd (post_diagnose env crop_name file)) = false /\
  reply_status (fst (post_diagnose env crop_name file)) <> 400 /\
  (forall request r,
     fetch_ok env (image_url request) r ->
     content r = upload_body file ->
     image_ok env (upload_body file) = false ->
     reply_status (fst (post_diagnose_by_url env crop_name request)) = 400 /\
     calls_predict (snd (post_diagnose_by_url env crop_name request)) = false).
Proof.
  intros Ha. rewrite (upload_log env crop_name file Ha).
  split; [reflexivity|]. split; [reflexivity|]. split.
  - pose proof (upload_status env crop_name file Ha) as Hs. cbv zeta in Hs. lia.
  - intros request r Hf Hc Hi. rewrite <- Hc in Hi.
    apply image_ok_error in Hi as [e He].
    rewrite (url_invalid_image env crop_name request r e Hf He).
    split; [reflexivity|].
    cbn [snd]. destruct (Image_open env (content r)); reflexivity.
Qed.

Lemma upload_skips_image_validation_witness :
  let env := demo_env (inr (demo_response 200 "OK"))
                      (Some (OtherException (lit "cannot identify image file")))
                      None (Some demo_info, Some f99_995, None) in
  upload_accepted (demo_upload "image/png") /\
  image_ok env demo_png = false /\
  post_diagnose env demo_crop (demo_upload "image/png")
  = (Reply_ok {| filename := lit "leaf.png"; confidence := float_of_Z 100;
                 disease_info := demo_info |},
     [Call_file_read (demo_upload "image/png");
      Call_predict_disease demo_crop demo_png]) /\
  reply_status (fst (post_diagnose env demo_crop (demo_upload "image/png"))) <> 400 /\
  reply_status (fst (post_diagnose_by_url env demo_crop demo_request)) = 400.
Proof.
  cbv zeta. split; [reflexivity|]. split; [reflexivity|].
  split; [vm_compute; reflexivity|].
  destruct (upload_skips_image_validation
              (demo_env (inr (demo_response 200 "OK"))
                        (Some (OtherException (lit "cannot identify image file")))
                        None (Some demo_info, Some f99_995, None))
              demo_crop (demo_upload "image/png") eq_refl) as [_ [_ [N U]]].
  split; [exact N|].
  apply (U demo_request (demo_response 200 "OK"));
    [split; reflexivity|reflexivity|reflexivity].
Defined.

(* ================================================================== *)
(** * Beyond the error taxonomy: origins of every reply *)
(* ================================================================== *)

Section Replies.

Variable env : Collaborators.
Variable crop_name : str.

Lemma upload_after_prediction (file : UploadFile) :
  upload_accepted file ->
  post_diagnose env crop_name file
  = (reply_after_prediction (upload_filename file)
       (predict_disease env crop_name (upload_body file)),
     [Call_file_read file; Call_predict_disease crop_name (upload_body file)]).
Proof.
  intros Ha. unfold upload_accepted in Ha. unfold_run.
  destruct (content_type file) as [ct|]; [|contradiction].
  rewrite Ha. cbn [negb app]. unfold reply_after_prediction, error_status.
  destruct (predict_disease env crop_name (upload_body file)) as [[d c] e].
  destruct (truthy e).
  - destruct e as [error|]; [|reflexivity].
    destruct (contains marker_unsupported error); [reflexivity|].
    cbn [orb].
    destruct (contains marker_model_missing error || contains marker_load_failed error);
      reflexivity.
  - destruct c; [destruct d|]; reflexivity.
Qed.

Lemma url_after_prediction (request : AnalysisRequest) (r : Response) (seg : str) :
  fetch_ok env (image_url request) r ->
  image_ok env (content r) = true ->
  last_segment (image_url request) = Some seg ->
  post_diagnose_by_url env crop_name request
  = (reply_after_prediction seg (predict_disease env crop_name (content r)),
     url_log crop_name request (content r)).
Proof.
  intros [H Hr] Hi Hs. apply image_ok_true in Hi as [Ho Hv].
  unfold last_segment in Hs. unfold_run.
  rewrite H. cbn [app]. rewrite raise_for_status_log, Hr, Ho. cbn [app].
  rewrite Hv. cbn [app]. unfold reply_after_prediction, error_status.
  destruct (predict_disease env crop_name (content r)) as [[d c] e].
  destruct (truthy e).
  - destruct e as [error|]; [|reflexivity].
    destruct (contains marker_unsupported error); [reflexivity|].
    cbn [orb].
    destruct (contains marker_model_missing error || contains marker_load_failed error);
      reflexivity.
  - destruct (split (image_url request) (lit "/")) as [pieces|]; [|discriminate].
    rewrite Hs. destruct c; [destruct d|]; reflexivity.
Qed.

Lemma error_status_values (error : str) :
  error_status error = 404 \/ error_status error = 500.
Proof.
  unfold error_status.
  destruct (contains marker_unsupported error || contains marker_model_missing error
            || contains marker_load_failed error); auto.
Qed.

Lemma reply_after_prediction_status (fname : str) (p : Prediction) :
  let st := reply_status (reply_after_prediction fname p) in
  st = 200 \/ st = 404 \/ st = 500.
Proof.
  destruct p as [[d c] e]. unfold reply_after_prediction.
  destruct (truthy e).
  - destruct e as [error|]; cbn; [|auto].
    destruct (error_status_values error) as [-> | ->]; auto.
  - destruct c; [destruct d|]; cbn; auto.
Qed.

Lemma reply_after_prediction_error (fname : str) (p : Prediction)
    (st : Z) (detail : str) :
  reply_after_prediction fname p = Reply_error st detail ->
  exists d c,
    p = (d, c, Some detail) /\ truthy (Some detail) = true /\
    st = error_status detail.
Proof.
  destruct p as [[d c] e]. unfold reply_after_prediction.
  destruct (truthy e) eqn:Ht.
  - destruct e as [error|]; [|discriminate].
    intros H. injection H as <- <-. now exists d, c.
  - destruct c; [destruct d|]; discriminate.
Qed.

(** The three ways a fetched URL request can go, by what was fetched. *)
Lemma fetch_cases (request : AnalysisRequest) :
  (exists e, requests_get env (image_url request) = inl e) \/
  (exists m, fetch_raises env (image_url request) m /\
             exists r, requests_get env (image_url request) = inr r) \/
  (exists r, fetch_ok env (image_url request) r).
Proof.
  destruct (requests_get env (image_url request)) as [e|r] eqn:Hg.
  - left. now exists e.
  - destruct (raise_for_status_cases r) as [Hr|[m Hr]].
    + right. right. exists r. now split.
    + right. left. exists m. split; [right; now exists r|now exists r].
Qed.

End Replies.

(** X1: every reply of the upload handler has status 200, 400, 404 or
    500.  It is 400 exactly when the content type is a string that does
    not start with "image/", and then no collaborator is called; a part
    with no content type at all is answered with 500. *)
Theorem upload_status_codes
    (env : Collaborators) (crop_name : str) (file : UploadFile) :
  (reply_status (fst (post_diagnose env crop_name file)) = 200 \/
   reply_status (fst (post_diagnose env crop_name file)) = 400 \/
   reply_status (fst (post_diagnose env crop_name file)) = 404 \/
   reply_status (fst (post_diagnose env crop_name file)) = 500) /\
  (reply_status (fst (post_diagnose env crop_name file)) = 400 <->
   exists ct, content_type file = Some ct /\
              startswith ct (lit "image/") = false) /\
  (upload_refused file ->
   post_diagnose env crop_name file = (Reply_error 400 msg_image_only, [])) /\
  (content_type file = None ->
   reply_status (fst (post_diagnose env crop_name file)) = 500).
Proof.
  split; [|split; [|split]].
  - destruct (upload_gate_cases file) as [Ha|[Hr|Hn]].
    + rewrite (upload_after_prediction env crop_name file Ha). cbn [fst].
      pose proof (reply_after_prediction_status (upload_filename file)
                    (predict_disease env crop_name (upload_body file))) as H.
      cbv zeta in H. tauto.
    + rewrite (upload_rejected env crop_name file Hr). cbn. auto.
    + rewrite (upload_untyped env crop_name file Hn). cbn. auto.
  - destruct (upload_gate_cases file) as [Ha|[Hr|Hn]].
    + rewrite (upload_after_prediction env crop_name file Ha). cbn [fst].
      pose proof (reply_after_prediction_status (upload_filename file)
                    (predict_disease env crop_name (upload_body file))) as H.
      cbv zeta in H. unfold upload_accepted in Ha.
      split; [intros E; rewrite E in H; lia|].
      intros [ct [Hc Hs]]. rewrite Hc in Ha. congruence.
    + rewrite (upload_rejected env crop_name file Hr). cbn [fst reply_status].
      unfold upload_refused in Hr.
      split; [intros _|reflexivity].
      destruct (content_type file) as [ct|]; [now exists ct|contradiction].
    + rewrite (upload_untyped env crop_name file Hn). cbn [fst reply_status].
      split; [discriminate|]. intros [ct [Hc _]]. congruence.
  - apply upload_rejected.
  - intros Hn. now rewrite (upload_untyped env crop_name file Hn).
Qed.

(** X2: as long as [requests.get] does not itself raise FastAPI's
    [HTTPException], every reply of the URL endpoint has status 200, 400,
    404 or 500. *)
Theorem url_status_codes
    (env : Collaborators) (crop_name : str) (request : AnalysisRequest) :
  (forall c d, requests_get env (image_url request) <> inl (HTTPException c d)) ->
  reply_status (fst (post_diagnose_by_url env crop_name request)) = 200 \/
  reply_status (fst (post_diagnose_by_url env crop_name request)) = 400 \/
  reply_status (fst (post_diagnose_by_url env crop_name request)) = 404 \/
  reply_status (fst (post_diagnose_by_url env crop_name request)) = 500.
Proof.
  intros Hne.
  destruct (requests_get env (image_url request)) as [e|r] eqn:Hg.
  - destruct e as [c d|m|m].
    + now elim (Hne c d).
    + rewrite (url_fetch_raises env crop_name request m) by (left; exact Hg).
      cbn; auto.
    + rewrite (url_fetch_crashes env crop_name request _ Hg) by discriminate.
      cbn; auto.
  - destruct (raise_for_status_cases r) as [Hr|[m Hr]].
    2:{ rewrite (url_fetch_raises env crop_name request m)
          by (right; exists r; split; assumption).
        cbn; auto. }
    assert (Hf : fetch_ok env (image_url request) r) by (split; assumption).
    destruct (image_ok env (content r)) eqn:Hi.
    + destruct (last_segment_total (image_url request)) as [seg Hs].
      rewrite (url_after_prediction env crop_name request r seg Hf Hi Hs).
      cbn [fst].
      pose proof (reply_after_prediction_status seg
                    (predict_disease env crop_name (content r))) as H.
      cbv zeta in H. tauto.
    + apply image_ok_error in Hi as [e He].
      rewrite (url_invalid_image env crop_name request r e Hf He). cbn; auto.
Qed.

Lemma url_status_codes_witness :
  let env := demo_env (inr (demo_response 503 "Service Unavailable")) None None
                      (Some demo_info, Some f99_995, None) in
  (forall c d, requests_get env (image_url demo_request) <> inl (HTTPException c d)) /\
  reply_status (fst (post_diagnose_by_url env demo_crop demo_request)) = 400 /\
  (reply_status (fst (post_diagnose_by_url env demo_crop demo_request)) = 200 \/
   reply_status (fst (post_diagnose_by_url env demo_crop demo_request)) = 400 \/
   reply_status (fst (post_diagnose_by_url env demo_crop demo_request)) = 404 \/
   reply_status (fst (post_diagnose_by_url env demo_crop demo_request)) = 500).
Proof.
  cbv zeta. split; [discriminate|]. split; [reflexivity|].
  apply (url_status_codes
           (demo_env (inr (demo_response 503 "Service Unavailable")) None None
                     (Some demo_info, Some f99_995, None))
           demo_crop demo_request).
  discriminate.
Defined.

(** X3: when the collaborator reports no error but hands back no
    confidence or no disease info, both handlers crash after the
    prediction call ([round(None, 2)], or pydantic refusing the missing
    field) and the client gets a 500. *)
Theorem missing_prediction_values_give_500
    (env : Collaborators) (crop_name : str)
    (d : option DiseaseInfo) (c : option float) (error : option str) :
  truthy error = false ->
  c = None \/ d = None ->
  (forall file,
     upload_accepted file ->
     predict_disease env crop_name (upload_body file) = (d, c, error) ->
     post_diagnose env crop_name file
     = (Reply_internal_error,
        [Call_file_read file;
         Call_predict_disease crop_name (upload_body file)])) /\
  (forall request r,
     fetch_ok env (image_url request) r ->
     image_ok env (content r) = true ->
     predict_disease env crop_name (content r) = (d, c, error) ->
     post_diagnose_by_url env crop_name request
     = (Reply_internal_error, url_log crop_name request (content r))).
Proof.
  intros Ht Hm.
  assert (Hr : forall fname, reply_after_prediction fname (d, c, error)
                             = Reply_internal_error).
  { intros fname. unfold reply_after_prediction. rewrite Ht.
    destruct Hm as [-> | ->]; [reflexivity|destruct c; reflexivity]. }
  split.
  - intros file Ha Hp.
    now rewrite (upload_after_prediction env crop_name file Ha), Hp, Hr.
  - intros request r Hf Hi Hp.
    destruct (last_segment_total (image_url request)) as [seg Hs].
    now rewrite (url_after_prediction env crop_name request r seg Hf Hi Hs), Hp, Hr.
Qed.

Lemma missing_prediction_values_give_500_witness :
  let env := demo_env (inr (demo_response 200 "OK")) None None
                      (Some demo_info, None, None) in
  truthy None = false /\
  reply_status (fst (post_diagnose env demo_crop (demo_upload "image/png"))) = 500 /\
  post_diagnose_by_url env demo_crop demo_request
  = (Reply_internal_error, url_log demo_crop demo_request demo_png).
Proof.
  cbv zeta. split; [reflexivity|].
  destruct (missing_prediction_values_give_500
              (demo_env (inr (demo_response 200 "OK")) None None
                        (Some demo_info, None, None))
              demo_crop (Some demo_info) None None eq_refl (or_introl eq_refl))
    as [U V].
  split.
  - rewrite (U (demo_upload "image/png")); reflexivity.
  - apply (V demo_request (demo_response 200 "OK"));
      [split; reflexivity|reflexivity|reflexivity].
Defined.

(** X4: only a [RequestException] of the fetch is turned into a 400; any
    other exception of [requests.get] escapes the handler: the client gets
    a 500 and neither the image check nor the prediction is reached. *)
Theorem other_fetch_exception_escapes
    (env : Collaborators) (crop_name : str) (request : AnalysisRequest)
    (message : str) :
  requests_get env (image_url request) = inl (OtherException message) ->
  post_diagnose_by_url env crop_name request
  = (Reply_internal_error, [Call_requests_get (image_url request)]).
Proof.
  intros Hg.
  rewrite (url_fetch_crashes env crop_name request _ Hg) by discriminate.
  reflexivity.
Qed.

Lemma other_fetch_exception_escapes_witness :
  let env := demo_env (inl (OtherException (lit "UnicodeError"))) None None
                      (Some demo_info, Some f99_995, None) in
  requests_get env (image_url demo_request)
  = inl (OtherException (lit "UnicodeError")) /\
  post_diagnose_by_url env demo_crop demo_request
  = (Reply_internal_error, [Call_requests_get demo_url]).
Proof.
  cbv zeta. split; [reflexivity|].
  apply (other_fetch_exception_escapes
           (demo_env (inl (OtherException (lit "UnicodeError"))) None None
                     (Some demo_info, Some f99_995, None))
           demo_crop demo_request (lit "UnicodeError")).
  reflexivity.
Defined.

(** X5: no collaborator is called twice and the order is fixed.  The
    upload handler makes no call at all or reads the file and predicts on
    its bytes; the calls of the URL handler are an initial segment of
    fetch, open, verify, predict that includes the fetch, the last three
    on the fetched bytes. *)
Theorem calls_once_and_in_order
    (env : Collaborators) (crop_name : str) (file : UploadFile)
    (request : AnalysisRequest) :
  (snd (post_diagnose env crop_name file) = [] \/
   snd (post_diagnose env crop_name file)
   = [Call_file_read file; Call_predict_disease crop_name (upload_body file)]) /\
  exists n b,
    (1 <= n <= 4)%nat /\
    snd (post_diagnose_by_url env crop_name request)
    = firstn n (url_log crop_name request b) /\
    (forall r, requests_get env (image_url request) = inr r -> b = content r).
Proof.
  split.
  - destruct (upload_gate_cases file) as [Ha|[Hr|Hn]].
    + right. now rewrite (upload_after_prediction env crop_name file Ha).
    + left. now rewrite (upload_rejected env crop_name file Hr).
    + left. now rewrite (upload_untyped env crop_name file Hn).
  - pose proof (url_run_total env crop_name request) as Hrun.
    destruct (post_diagnose_by_url env crop_name request) as [reply log].
    cbn [snd].
    inversion Hrun as [e Hg Hre|r m Hg Hr|r e Hf He|r reply' Hf Hi Hinv Hst];
      subst.
    + exists 1%nat, []. split; [lia|]. split; [reflexivity|].
      intros r Hr. congruence.
    + exists 1%nat, (content r). split; [lia|]. split; [reflexivity|].
      intros r' Hr'. congruence.
    + destruct Hf as [Hg Hr].
      destruct (Image_open env (content r)).
      * exists 2%nat, (content r). split; [lia|]. split; [reflexivity|].
        intros r' Hr'. congruence.
      * exists 3%nat, (content r). split; [lia|]. split; [reflexivity|].
        intros r' Hr'. congruence.
    + destruct Hf as [Hg Hr].
      exists 4%nat, (content r). split; [lia|]. split; [reflexivity|].
      intros r' Hr'. congruence.
Qed.

(** X6: a 400 is never the answer to a request that reached the
    prediction call, on either endpoint. *)
Theorem no_400_after_prediction
    (env : Collaborators) (crop_name : str) (file : UploadFile)
    (request : AnalysisRequest) :
  (calls_predict (snd (post_diagnose env crop_name file)) = true ->
   reply_status (fst (post_diagnose env crop_name file)) <> 400) /\
  (calls_predict (snd (post_diagnose_by_url env crop_name request)) = true ->
   reply_status (fst (post_diagnose_by_url env crop_name request)) <> 400).
Proof.
  split.
  - destruct (upload_gate_cases file) as [Ha|[Hr|Hn]].
    + intros _. rewrite (upload_after_prediction env crop_name file Ha).
      cbn [fst].
      pose proof (reply_after_prediction_status (upload_filename file)
                    (predict_disease env crop_name (upload_body file))) as H.
      cbv zeta in H. lia.
    + rewrite (upload_rejected env crop_name file Hr). discriminate.
    + rewrite (upload_untyped env crop_name file Hn). discriminate.
  - pose proof (url_run_total env crop_name request) as Hrun.
    destruct (post_diagnose_by_url env crop_name request) as [reply log].
    cbn [fst snd].
    inversion Hrun as [e Hg Hre|r m Hg Hr|r e Hf He|r reply' Hf Hi Hinv Hst];
      subst; try discriminate.
    + destruct (Image_open env (content r)); discriminate.
    + intros _. exact Hst.
Qed.

(** X7: where an error reply of the upload endpoint comes from.  It is
    either the 400 of the content-type gate with its fixed message, or the
    collaborator's own non-empty error string, with the status the
    markers give it. *)
Theorem upload_error_origin
    (env : Collaborators) (crop_name : str) (file : UploadFile)
    (status : Z) (detail : str) :
  fst (post_diagnose env crop_name file) = Reply_error status detail ->
  (upload_refused file /\
   status = 400 /\ detail = msg_image_only) \/
  (upload_accepted file /\
   truthy (Some detail) = true /\
   status = error_status detail /\
   exists d c,
     predict_disease env crop_name (upload_body file) = (d, c, Some detail)).
Proof.
  destruct (upload_gate_cases file) as [Ha|[Hr|Hn]].
  - rewrite (upload_after_prediction env crop_name file Ha). cbn [fst].
    intros H. apply reply_after_prediction_error in H as [d [c [Hp [Ht Hst]]]].
    right. repeat split; try assumption. now exists d, c.
  - rewrite (upload_rejected env crop_name file Hr). cbn [fst].
    intros H. injection H as <- <-. left. now repeat split.
  - rewrite (upload_untyped env crop_name file Hn). discriminate.
Qed.

Lemma upload_error_origin_witness :
  let env := demo_env (inr (demo_response 200 "OK")) None None
                      (None, None, Some (lit "out of memory")) in
  fst (post_diagnose env demo_crop (demo_upload "image/png"))
  = Reply_error 500 (lit "out of memory") /\
  500 = error_status (lit "out of memory") /\
  exists d c,
    predict_disease env demo_crop (upload_body (demo_upload "image/png"))
    = (d, c, Some (lit "out of memory")).
Proof.
  cbv zeta. split; [reflexivity|].
  destruct (upload_error_origin
              (demo_env (inr (demo_response 200 "OK")) None None
                        (None, None, Some (lit "out of memory")))
              demo_crop (demo_upload "image/png") 500 (lit "out of memory")
              eq_refl) as [[H _]|[_ [_ H]]].
  - discriminate H.
  - exact H.
Defined.

(** X8: where an error reply of the URL endpoint comes from, as long as
    [requests.get] does not itself raise FastAPI's [HTTPException].  It is
    a 400 of the fetch (download message, then the exception's text), a
    400 of the image check (invalid-image message, then the exception's
    text), or the collaborator's own non-empty error string with the
    status the markers give it.  The two 400 details never coincide. *)
Theorem url_error_origin
    (env : Collaborators) (crop_name : str) (request : AnalysisRequest)
    (status : Z) (detail : str) :
  (forall c d, requests_get env (image_url request) <> inl (HTTPException c d)) ->
  fst (post_diagnose_by_url env crop_name request) = Reply_error status detail ->
  ((status = 400 /\
    exists m, fetch_raises env (image_url request) m /\
              detail = msg_download_failed ++ m) \/
   (status = 400 /\
    exists r e, fetch_ok env (image_url request) r /\
                image_error env (content r) = Some e /\
                detail = msg_invalid_image ++ exn_str e) \/
   (exists r d c,
      fetch_ok env (image_url request) r /\
      image_ok env (content r) = true /\
      predict_disease env crop_name (content r) = (d, c, Some detail) /\
      truthy (Some detail) = true /\
      status = error_status detail)) /\
  (forall a b, msg_download_failed ++ a <> msg_invalid_image ++ b).
Proof.
  intros Hne Hrep. split; [|intros a b H; discriminate H].
  destruct (requests_get env (image_url request)) as [e|r] eqn:Hg.
  - destruct e as [c d|m|m].
    + now elim (Hne c d).
    + rewrite (url_fetch_raises env crop_name request m) in Hrep
        by (left; exact Hg).
      injection Hrep as <- <-. left. split; [reflexivity|].
      exists m. split; [left; exact Hg|reflexivity].
    + rewrite (url_fetch_crashes env crop_name request _ Hg) in Hrep
        by discriminate.
      discriminate.
  - destruct (raise_for_status_cases r) as [Hr|[m Hr]].
    2:{ assert (Hfr : fetch_raises env (image_url request) m)
          by (right; exists r; split; assumption).
        rewrite (url_fetch_raises env crop_name request m Hfr) in Hrep.
        injection Hrep as <- <-. left. split; [reflexivity|]. now exists m. }
    assert (Hf : fetch_ok env (image_url request) r) by (split; assumption).
    destruct (image_ok env (content r)) eqn:Hi.
    + destruct (last_segment_total (image_url request)) as [seg Hs].
      rewrite (url_after_prediction env crop_name request r seg Hf Hi Hs) in Hrep.
      cbn [fst] in Hrep.
      apply reply_after_prediction_error in Hrep as [d [c [Hp [Ht Hst]]]].
      right. right. now exists r, d, c.
    + apply image_ok_error in Hi as [e He].
      rewrite (url_invalid_image env crop_name request r e Hf He) in Hrep.
      injection Hrep as <- <-. right. left. split; [reflexivity|].
      now exists r, e.
Qed.

Lemma url_error_origin_witness :
  let env := demo_env (inr (demo_response 404 "Not Found")) None None
                      (Some demo_info, Some f99_995, None) in
  (forall c d, requests_get env (image_url demo_request) <> inl (HTTPException c d)) /\
  fst (post_diagnose_by_url env demo_crop demo_request)
  = Reply_error 400
      (msg_download_failed
       ++ lit "404 Client Error: Not Found for url: http://farm.example/img/leaf.png") /\
  exists m, fetch_raises env (image_url demo_request) m.
Proof.
  cbv zeta. split; [discriminate|]. split; [reflexivity|].
  destruct (url_error_origin
              (demo_env (inr (demo_response 404 "Not Found")) None None
                        (Some demo_info, Some f99_995, None))
              demo_crop demo_request 400
              (msg_download_failed
               ++ lit "404 Client Error: Not Found for url: http://farm.example/img/leaf.png")
              ltac:(discriminate) eq_refl) as [[H|[H|H]] _].
  - destruct H as [_ [m [Hm _]]]. now exists m.
  - destruct H as [_ [r [e [[Hg Hr] _]]]].
    cbn in Hg. injection Hg as <-. discriminate Hr.
  - destruct H as [r [d [c [[Hg Hr] _]]]].
    cbn in Hg. injection Hg as <-. discriminate Hr.
Defined.

(** X9: a 200 is only ever built from a prediction.  On the upload
    endpoint the file passed the content-type gate; on the URL endpoint
    the fetch and the image check passed; in both the collaborator
    returned a falsy error and the body carries its disease info
    unchanged, its confidence rounded, and the upload's own file name or
    the last piece of the URL. *)
Theorem success_origin (env : Collaborators) (crop_name : str) :
  (forall file body,
     fst (post_diagnose env crop_name file) = Reply_ok body ->
     upload_accepted file /\
     exists d c error,
       predict_disease env crop_name (upload_body file) = (Some d, Some c, error) /\
       truthy error = false /\
       filename body = upload_filename file /\
       confidence body = round c 2 /\
       disease_info body = d) /\
  (forall request body,
     fst (post_diagnose_by_url env crop_name request) = Reply_ok body ->
     exists r d c error,
       fetch_ok env (image_url request) r /\
       image_ok env (content r) = true /\
       predict_disease env crop_name (content r) = (Some d, Some c, error) /\
       truthy error = false /\
       last_segment (image_url request) = Some (filename body) /\
       confidence body = round c 2 /\
       disease_info body = d).
Proof.
  split.
  - intros file body Hb.
    destruct (upload_gate_cases file) as [Ha|[Hr|Hn]].
    2:{ rewrite (upload_rejected env crop_name file Hr) in Hb. discriminate. }
    2:{ rewrite (upload_untyped env crop_name file Hn) in Hb. discriminate. }
    split; [exact Ha|].
    destruct (upload_ok_inv env crop_name file body Hb) as [d [c [e [Hp [Ht ->]]]]].
    now exists d, c, e.
  - intros request body Hb. now apply url_ok_inv.
Qed.

(** X10: past the prediction call the two handlers are the same code up
    to the file name.  For an accepted upload and a URL request whose
    fetch and image check passed, if the collaborator returns the same
    triple to both, the replies have the same status; they are equal, or
    both are 200 with the same confidence and disease info; and they are
    equal outright when the last piece of the URL is the upload's file
    name. *)
Theorem endpoints_agree_after_prediction
    (env : Collaborators) (crop_name : str) (file : UploadFile)
    (request : AnalysisRequest) (r : Response) :
  upload_accepted file ->
  fetch_ok env (image_url request) r ->
  image_ok env (content r) = true ->
  predict_disease env crop_name (upload_body file)
  = predict_disease env crop_name (content r) ->
  reply_status (fst (post_diagnose env crop_name file))
  = reply_status (fst (post_diagnose_by_url env crop_name request)) /\
  (fst (post_diagnose env crop_name file)
   = fst (post_diagnose_by_url env crop_name request) \/
   exists b1 b2,
     fst (post_diagnose env crop_name file) = Reply_ok b1 /\
     fst (post_diagnose_by_url env crop_name request) = Reply_ok b2 /\
     confidence b1 = confidence b2 /\
     disease_info b1 = disease_info b2) /\
  (last_segment (image_url request) = Some (upload_filename file) ->
   fst (post_diagnose env crop_name file)
   = fst (post_diagnose_by_url env crop_name request)).
Proof.
  intros Ha Hf Hi Hp.
  destruct (last_segment_total (image_url request)) as [seg Hs].
  rewrite (upload_after_prediction env crop_name file Ha).
  rewrite (url_after_prediction env crop_name request r seg Hf Hi Hs).
  cbn [fst]. rewrite Hp.
  destruct (predict_disease env crop_name (content r)) as [[d c] e].
  unfold reply_after_prediction.
  split; [|split].
  - destruct (truthy e); [reflexivity|].
    destruct c; [destruct d|]; reflexivity.
  - destruct (truthy e); [left; reflexivity|].
    destruct c as [c|]; [destruct d as [d|]|]; try (left; reflexivity).
    right. do 2 eexists. repeat split.
  - intros Hs'. rewrite Hs in Hs'. injection Hs' as ->. reflexivity.
Qed.

Lemma endpoints_agree_after_prediction_witness :
  let env := demo_env (inr (demo_response 200 "OK")) None None
                      (Some demo_info, Some f87_654321, None) in
  upload_accepted (demo_upload "image/png") /\
  fetch_ok env (image_url demo_request) (demo_response 200 "OK") /\
  fst (post_diagnose env demo_crop (demo_upload "image/png"))
  = fst (post_diagnose_by_url env demo_crop demo_request) /\
  reply_status (fst (post_diagnose env demo_crop (demo_upload "image/png"))) = 200.
Proof.
  cbv zeta. split; [reflexivity|]. split; [split; reflexivity|].
  destruct (endpoints_agree_after_prediction
              (demo_env (inr (demo_response 200 "OK")) None None
                        (Some demo_info, Some f87_654321, None))
              demo_crop (demo_upload "image/png") demo_request
              (demo_response 200 "OK") eq_refl (conj eq_refl eq_refl)
              eq_refl eq_refl) as [_ [_ H]].
  split; [apply H; reflexivity|reflexivity].
Defined.

(** X11: a fetch that raises a [RequestException] is reported as a 400
    whose detail is the download message followed by the exception's
    text, and nothing else is called; a response with a 4xx or 5xx status
    is such a fetch, whatever its body. *)
Theorem fetch_failure_is_reported
    (env : Collaborators) (crop_name : str) (request : AnalysisRequest) :
  (forall m,
     fetch_raises env (image_url request) m ->
     post_diagnose_by_url env crop_name request
     = (Reply_error 400 (msg_download_failed ++ m),
        [Call_requests_get (image_url request)])) /\
  (forall r,
     requests_get env (image_url request) = inr r ->
     400 <= status_code r < 600 ->
     exists m,
       post_diagnose_by_url env crop_name request
       = (Reply_error 400 (msg_download_failed ++ m),
          [Call_requests_get (image_url request)])).
Proof.
  split.
  - intros m Hm. now apply url_fetch_raises.
  - intros r Hg Hs.
    destruct (error_status_response_raises env _ r Hg Hs) as [m Hm].
    exists m. now apply url_fetch_raises.
Qed.

Lemma fetch_failure_is_reported_witness :
  let env := demo_env (inr (demo_response 503 "Service Unavailable")) None None
                      (Some demo_info, Some f99_995, None) in
  exists m,
    post_diagnose_by_url env demo_crop demo_request
    = (Reply_error 400 (msg_download_failed ++ m),
       [Call_requests_get (image_url demo_request)]).
Proof.
  cbv zeta.
  apply (proj2 (fetch_failure_is_reported
                  (demo_env (inr (demo_response 503 "Service Unavailable"))
                            None None (Some demo_info, Some f99_995, None))
                  demo_crop demo_request)
               (demo_response 503 "Service Unavailable"));
    [reflexivity|cbn; lia].
Defined.

(* ================================================================== *)
(** * The file name of a URL request *)
(* ================================================================== *)

(** A string has no slash, or splits at its last one. *)
Lemma last_slash_decompose (u : str) :
  contains (lit "/") u = false \/
  exists pre suf, u = pre ++ lit "/" ++ suf /\ contains (lit "/") suf = false.
Proof.
  induction u as [|c u IH].
  - left. reflexivity.
  - destruct IH as [Hn|[pre [suf [-> Hn]]]].
    + rewrite contains_slash_cons, Hn, orb_false_r.
      destruct (47 =? c)%N eqn:Ec.
      * right. apply N.eqb_eq in Ec. subst c. exists [], u. now split.
      * left. reflexivity.
    + right. exists (c :: pre), suf. now split.
Qed.

(** The last piece of [u.split("/")] never holds a slash and is the tail
    of [u] that follows its last slash, all of [u] when there is none. *)
Lemma last_segment_decompose (u : str) :
  exists pre seg,
    last_segment u = Some seg /\
    u = pre ++ seg /\
    contains (lit "/") seg = false /\
    (pre = [] \/ exists pre', pre = pre' ++ lit "/").
Proof.
  destruct (last_slash_decompose u) as [Hn|[pre [suf [-> Hn]]]].
  - exists [], u. split; [now apply last_segment_no_slash|].
    split; [reflexivity|]. split; [exact Hn|now left].
  - exists (pre ++ lit "/"), suf.
    split; [now apply last_segment_after_slash|].
    split; [now rewrite <- app_assoc|].
    split; [exact Hn|right; now exists pre].
Qed.

(** X12: the file name of a successful URL request never contains a
    slash, and the URL is that file name preceded by nothing or by a text
    that ends in a slash. *)
Theorem url_filename_has_no_slash
    (env : Collaborators) (crop_name : str) (request : AnalysisRequest)
    (body : DiagnosisResult) :
  fst (post_diagnose_by_url env crop_name request) = Reply_ok body ->
  contains (lit "/") (filename body) = false /\
  exists pre,
    image_url request = pre ++ filename body /\
    (pre = [] \/ exists pre', pre = pre' ++ lit "/").
Proof.
  intros Hb.
  destruct (url_ok_inv env crop_name request body Hb)
    as [r [d [c [e [_ [_ [_ [_ [Hs _]]]]]]]]].
  destruct (last_segment_decompose (image_url request))
    as [pre [seg [Hs' [Hu [Hn Hp]]]]].
  rewrite Hs in Hs'. injection Hs' as <-.
  split; [exact Hn|]. now exists pre.
Qed.

Lemma url_filename_has_no_slash_witness :
  let env := demo_env (inr (demo_response 200 "OK")) None None
                      (Some demo_info, Some f99_995, None) in
  let body := {| filename := lit "leaf.png"; confidence := float_of_Z 100;
                 disease_info := demo_info |} in
  fst (post_diagnose_by_url env demo_crop demo_request) = Reply_ok body /\
  contains (lit "/") (filename body) = false /\
  exists pre,
    image_url demo_request = pre ++ filename body /\
    (pre = [] \/ exists pre', pre = pre' ++ lit "/").
Proof.
  cbv zeta.
  assert (Hb : fst (post_diagnose_by_url
                      (demo_env (inr (demo_response 200 "OK")) None None
                                (Some demo_info, Some f99_995, None))
                      demo_crop demo_request)
               = Reply_ok {| filename := lit "leaf.png";
                             confidence := float_of_Z 100;
                             disease_info := demo_info |})
    by (vm_compute; reflexivity).
  split; [exact Hb|].
  exact (url_filename_has_no_slash _ _ _ _ Hb).
Defined.

(** X13: a URL that ends in a slash yields the empty file name on
    success. *)
Theorem trailing_slash_gives_empty_filename
    (env : Collaborators) (crop_name : str) (request : AnalysisRequest)
    (body : DiagnosisResult) (pre : str) :
  image_url request = pre ++ lit "/" ->
  fst (post_diagnose_by_url env crop_name request) = Reply_ok body ->
  filename body = [].
Proof.
  intros Hu Hb.
  destruct (url_ok_inv env crop_name request body Hb)
    as [r [d [c [e [_ [_ [_ [_ [Hs _]]]]]]]]].
  rewrite Hu in Hs.
  rewrite <- (app_nil_r (lit "/")) in Hs at 1.
  rewrite (last_segment_after_slash pre [] eq_refl) in Hs.
  now injection Hs.
Qed.

Lemma trailing_slash_gives_empty_filename_witness :
  let env := demo_env (inr (demo_response 200 "OK")) None None
                      (Some demo_info, Some f99_995, None) in
  let body := {| filename := []; confidence := float_of_Z 100;
                 disease_info := demo_info |} in
  image_url demo_dir_request = lit "http://farm.example/img" ++ lit "/" /\
  fst (post_diagnose_by_url env demo_crop demo_dir_request) = Reply_ok body /\
  filename body = [].
Proof.
  cbv zeta.
  assert (Hb : fst (post_diagnose_by_url
                      (demo_env (inr (demo_response 200 "OK")) None None
                                (Some demo_info, Some f99_995, None))
                      demo_crop demo_dir_request)
               = Reply_ok {| filename := []; confidence := float_of_Z 100;
                             disease_info := demo_info |})
    by (vm_compute; reflexivity).
  split; [reflexivity|]. split; [exact Hb|].
  exact (trailing_slash_gives_empty_filename
           (demo_env (inr (demo_response 200 "OK")) None None
                     (Some demo_info, Some f99_995, None))
           demo_crop demo_dir_request _
           (lit "http://farm.example/img") eq_refl Hb).
Defined.

(* ================================================================== *)
(** * Rounding twice *)
(* ================================================================== *)

Lemma float_same_eq (x y : float) : float_same x y = true -> x = y.
Proof.
  destruct x as [s|s| |s m e], y as [t|t| |t n f]; cbn; try discriminate;
    try reflexivity.
  - intros H. apply Bool.eqb_prop in H. now subst.
  - intros H. apply Bool.eqb_prop in H. now subst.
  - intros H. apply andb_true_iff in H as [H He].
    apply andb_true_iff in H as [Hs Hm].
    apply Bool.eqb_prop in Hs. apply Pos.eqb_eq in Hm. apply Z.eqb_eq in He.
    now subst.
Qed.

(** What [round(c, 2)] can be for a percentage [c]: a zero, or the float
    nearest to [k / 100] for some [k] from 1 to 10000. *)
Lemma round_percent_cases (c : float) :
  percent c = true ->
  (exists s, round c 2 = S754_zero s) \/
  (exists k, Zpos k <= 10000 /\ round c 2 = hundredth k).
Proof.
  intros H. destruct c as [s|s| |s m e].
  - left. now exists s.
  - destruct s; discriminate.
  - discriminate.
  - unfold percent in H. apply andb_true_iff in H as [H H100].
    apply andb_true_iff in H as [Hv H0].
    destruct s; [discriminate|].
    destruct (le_hundred_mantissa m e Hv H100) as [p [-> Hm]].
    pose proof (rint_half_even_percent m p Hm) as Hk.
    unfold round. change (10 ^ Z.of_N 2) with 100. cbv zeta.
    destruct (rint_half_even (Zpos m * 100) (Zneg p)) as [|k|k].
    + left. now exists false.
    + right. exists k. split; [lia|reflexivity].
    + lia.
Qed.

Lemma hundredths_are_fixed :
  all_up_to (fun k => float_same (round (hundredth k) 2) (hundredth k))
            (Z.to_nat 10000) = true.
Proof. vm_compute. reflexivity. Qed.

Lemma round_hundredth (k : positive) :
  Zpos k <= 10000 -> round (hundredth k) 2 = hundredth k.
Proof.
  intros Hk. apply float_same_eq.
  apply (all_up_to_spec _ _ hundredths_are_fixed). lia.
Qed.

(** X14: rounding is idempotent on percentages.  A confidence in [0,100]
    that went through [round(., 2)] is left as it is by a second
    rounding, so a collaborator that already rounds its percentage sees
    it in the response unchanged, on both endpoints. *)
Theorem rounding_twice_changes_nothing (c : float) :
  percent c = true ->
  round (round c 2) 2 = round c 2 /\
  (forall env crop_name d error,
     truthy error = false ->
     (forall file,
        upload_accepted file ->
        predict_disease env crop_name (upload_body file)
        = (Some d, Some (round c 2), error) ->
        exists body,
          fst (post_diagnose env crop_name file) = Reply_ok body /\
          confidence body = round c 2) /\
     (forall request r,
        fetch_ok env (image_url request) r ->
        image_ok env (content r) = true ->
        predict_disease env crop_name (content r)
        = (Some d, Some (round c 2), error) ->
        exists body,
          fst (post_diagnose_by_url env crop_name request) = Reply_ok body /\
          confidence body = round c 2)).
Proof.
  intros Hc.
  assert (Hi : round (round c 2) 2 = round c 2).
  { destruct (round_percent_cases c Hc) as [[s ->]|[k [Hk ->]]].
    - reflexivity.
    - now apply round_hundredth. }
  split; [exact Hi|].
  intros env crop_name d error Ht. split.
  - intros file Ha Hp.
    rewrite (upload_success env crop_name file d (round c 2) error Ha Hp Ht).
    eexists. split; [reflexivity|exact Hi].
  - intros request r Hf Him Hp.
    destruct (last_segment_total (image_url request)) as [seg Hs].
    rewrite (url_success env crop_name request r d (round c 2) error seg
               Hf Him Hp Ht Hs).
    eexists. split; [reflexivity|exact Hi].
Qed.

Lemma rounding_twice_changes_nothing_witness :
  percent f87_654321 = true /\
  round f87_654321 2 = f87_65 /\
  round f87_65 2 = f87_65.
Proof.
  split; [vm_compute; reflexivity|].
  assert (E : round f87_654321 2 = f87_65) by (vm_compute; reflexivity).
  split; [exact E|].
  rewrite <- E.
  exact (proj1 (rounding_twice_changes_nothing f87_654321 eq_refl)).
Defined.

(* ================================================================== *)
(** * Rounding keeps the order *)
(* ================================================================== *)

(** [rint_half_even] is monotone in the numerator. *)
Lemma rint_half_even_mono (n1 n2 : Z) (p : positive) :
  n1 <= n2 ->
  rint_half_even n1 (Zneg p) <= rint_half_even n2 (Zneg p).
Proof.
  intros Hn. unfold rint_half_even. cbv zeta.
  set (d := Z.pow_pos 2 p).
  assert (Hd : 0 < d) by apply pow_pos_positive.
  pose proof (Z.div_mod n1 d ltac:(lia)) as H1.
  pose proof (Z.div_mod n2 d ltac:(lia)) as H2.
  pose proof (Z.mod_pos_bound n1 d Hd) as Hr1.
  pose proof (Z.mod_pos_bound n2 d Hd) as Hr2.
  pose proof (Z.div_le_mono n1 n2 d Hd Hn) as Hq.
  set (q1 := n1 / d) in *. set (r1 := n1 mod d) in *.
  set (q2 := n2 / d) in *. set (r2 := n2 mod d) in *.
  assert (Hcase : q1 + 1 <= q2 \/ (q1 = q2 /\ r1 <= r2)) by nia.
  destruct (2 * r1 ?= d) eqn:E1; destruct (2 * r2 ?= d) eqn:E2;
    try apply Z.compare_eq in E1; try apply Z.compare_eq in E2;
    try rewrite Z.compare_lt_iff in E1; try rewrite Z.compare_lt_iff in E2;
    try rewrite Z.compare_gt_iff in E1; try rewrite Z.compare_gt_iff in E2;
    destruct Hcase as [Hc|[Hc Hr]];
    try (destruct (Z.even q1) eqn:Ev1); try (destruct (Z.even q2) eqn:Ev2);
    try lia;
    subst q2; congruence.
Qed.

(** Scaling numerator and denominator by a power of two changes nothing. *)
Lemma rint_half_even_scale (n : Z) (p j : positive) :
  rint_half_even (n * Z.pow_pos 2 j) (Zneg (p + j)) = rint_half_even n (Zneg p).
Proof.
  unfold rint_half_even. cbv zeta.
  assert (Hp : Z.pow_pos 2 (p + j) = Z.pow_pos 2 p * Z.pow_pos 2 j).
  { rewrite !Z.pow_pos_fold, Pos2Z.inj_add. apply Z.pow_add_r; lia. }
  rewrite Hp.
  pose proof (pow_pos_positive p) as Hd. pose proof (pow_pos_positive j) as Hj.
  set (d := Z.pow_pos 2 p) in *. set (t := Z.pow_pos 2 j) in *.
  rewrite Z.div_mul_cancel_r by lia.
  rewrite Z.mul_mod_distr_r by lia.
  replace (2 * (n mod d * t)) with (2 * (n mod d) * t) by ring.
  rewrite <- Zmult_compare_compat_r by lia.
  reflexivity.
Qed.

(** Of two valid positive floats with negative exponents in [<=] order,
    the first has the larger or the same denominator and the smaller or
    the same value. *)
Lemma leb_values (m1 m2 p1 p2 : positive) :
  bounded prec64 emax64 m1 (Zneg p1) = true ->
  bounded prec64 emax64 m2 (Zneg p2) = true ->
  float_leb (S754_finite false m1 (Zneg p1)) (S754_finite false m2 (Zneg p2)) = true ->
  (p1 = p2 /\ Zpos m1 <= Zpos m2) \/
  (exists j, p1 = (p2 + j)%positive /\ Zpos m1 <= Zpos m2 * Z.pow_pos 2 j).
Proof.
  intros Hb1 Hb2 Hle.
  pose proof (bounded_mantissa m1 _ Hb1) as Hm1.
  pose proof (bounded_normal m1 _ Hb1) as [He1 _].
  pose proof (bounded_normal m2 _ Hb2) as [_ Hn2].
  unfold float_leb, SFleb, SFcompare in Hle.
  destruct (Zneg p1 ?= Zneg p2) eqn:Ec.
  - apply Z.compare_eq in Ec. injection Ec as ->. left. split; [reflexivity|].
    apply Pos2Z.pos_le_pos. unfold Pos.le, Pos.compare. intros E.
    rewrite E in Hle. discriminate.
  - rewrite Z.compare_lt_iff in Ec. right.
    exists (p1 - p2)%positive.
    assert (Hp : (p2 < p1)%positive) by lia.
    split; [lia|].
    specialize (Hn2 ltac:(lia)).
    pose proof (pow_pos_positive (p1 - p2)) as Hj.
    assert (2 <= Z.pow_pos 2 (p1 - p2)).
    { rewrite Z.pow_pos_fold.
      change 2 with (2 ^ 1) at 1. apply Z.pow_le_mono_r; lia. }
    assert (E53 : 2 ^ 53 = 2 * 2 ^ 52) by (vm_compute; reflexivity).
    rewrite E53 in Hm1. nia.
  - discriminate.
Qed.

(** The nearest integer of a hundredfold percentage grows with the
    percentage. *)
Lemma rint_percent_mono (m1 m2 p1 p2 : positive) :
  bounded prec64 emax64 m1 (Zneg p1) = true ->
  bounded prec64 emax64 m2 (Zneg p2) = true ->
  float_leb (S754_finite false m1 (Zneg p1)) (S754_finite false m2 (Zneg p2)) = true ->
  rint_half_even (Zpos m1 * 100) (Zneg p1)
  <= rint_half_even (Zpos m2 * 100) (Zneg p2).
Proof.
  intros Hb1 Hb2 Hle.
  destruct (leb_values m1 m2 p1 p2 Hb1 Hb2 Hle) as [[-> Hm]|[j [-> Hm]]].
  - apply rint_half_even_mono. lia.
  - rewrite <- (rint_half_even_scale (Zpos m2 * 100) p2 j).
    apply rint_half_even_mono. lia.
Qed.

Lemma float_leb_refl_pos (x : float) :
  is_pos_finite x = true -> float_leb x x = true.
Proof.
  destruct x as [s|s| |[|] m e]; try discriminate. intros _.
  unfold float_leb, SFleb, SFcompare.
  rewrite Z.compare_refl.
  change (Pos.compare_cont Eq m m) with (Pos.compare m m).
  now rewrite Pos.compare_refl.
Qed.

Lemma float_leb_trans_pos (x y z : float) :
  is_pos_finite x = true -> is_pos_finite y = true -> is_pos_finite z = true ->
  float_leb x y = true -> float_leb y z = true -> float_leb x z = true.
Proof.
  destruct x as [s|s| |[|] m1 e1]; try discriminate.
  destruct y as [s|s| |[|] m2 e2]; try discriminate.
  destruct z as [s|s| |[|] m3 e3]; try discriminate.
  intros _ _ _. unfold float_leb, SFleb, SFcompare.
  change (Pos.compare_cont Eq m1 m2) with (Pos.compare m1 m2).
  change (Pos.compare_cont Eq m2 m3) with (Pos.compare m2 m3).
  change (Pos.compare_cont Eq m1 m3) with (Pos.compare m1 m3).
  destruct (Z.compare_spec e1 e2); destruct (Z.compare_spec e2 e3);
    destruct (Z.compare_spec e1 e3);
    destruct (Pos.compare_spec m1 m2); destruct (Pos.compare_spec m2 m3);
    destruct (Pos.compare_spec m1 m3);
    intros Hxy Hyz; try reflexivity; try discriminate; lia.
Qed.

Lemma hundredth_steps :
  all_up_to hundredth_step (Z.to_nat 9999) = true.
Proof. vm_compute. reflexivity. Qed.

Lemma hundredth_step_ok (k : positive) :
  Zpos k < 10000 -> hundredth_step k = true.
Proof.
  intros Hk. apply (all_up_to_spec _ _ hundredth_steps). lia.
Qed.

Lemma hundredth_pos_finite (k : positive) :
  Zpos k <= 10000 -> is_pos_finite (hundredth k) = true.
Proof.
  intros Hk. destruct (Pos.eq_dec k 10000) as [->|Hne].
  - vm_compute. reflexivity.
  - assert (Hs : hundredth_step k = true) by (apply hundredth_step_ok; lia).
    unfold hundredth_step in Hs. apply andb_true_iff in Hs as [Hs _].
    now apply andb_true_iff in Hs as [Hs _].
Qed.

Lemma hundredth_mono (j k : positive) :
  (j <= k)%positive -> Zpos k <= 10000 ->
  float_leb (hundredth j) (hundredth k) = true.
Proof.
  intros Hjk. revert Hjk. pattern k. apply Pos.peano_ind; clear k.
  - intros Hj Hk. assert (j = 1%positive) by lia. subst j.
    apply float_leb_refl_pos. now apply hundredth_pos_finite.
  - intros k IH Hj Hk.
    destruct (Pos.eq_dec j (Pos.succ k)) as [->|Hne].
    + apply float_leb_refl_pos. now apply hundredth_pos_finite.
    + assert (Hs : hundredth_step k = true) by (apply hundredth_step_ok; lia).
      unfold hundredth_step in Hs. apply andb_true_iff in Hs as [Hs Hle].
      apply andb_true_iff in Hs as [Hf1 Hf2].
      apply float_leb_trans_pos with (hundredth k); try assumption.
      * apply hundredth_pos_finite. lia.
      * apply IH; lia.
Qed.

Lemma zero_leb_pos_finite (s : bool) (x : float) :
  is_pos_finite x = true -> float_leb (S754_zero s) x = true.
Proof. destruct x as [t|t| |[|] m e]; try discriminate. reflexivity. Qed.

(** X15: rounding never reorders two confidences.  For percentages [a]
    and [b] with [a <= b], [round(a, 2) <= round(b, 2)]. *)
Theorem rounding_keeps_order (a b : float) :
  percent a = true ->
  percent b = true ->
  float_leb a b = true ->
  float_leb (round a 2) (round b 2) = true.
Proof.
  intros Ha Hb Hle.
  assert (Hzero : forall s, float_leb (S754_zero s) (round b 2) = true).
  { intros s. destruct (round_percent_cases b Hb) as [[t ->]|[k [Hk ->]]].
    - reflexivity.
    - apply zero_leb_pos_finite. now apply hundredth_pos_finite. }
  destruct a as [s|s| |s m1 e1].
  - apply Hzero.
  - destruct s; discriminate.
  - discriminate.
  - unfold percent in Ha. apply andb_true_iff in Ha as [Ha Ha100].
    apply andb_true_iff in Ha as [Hva Ha0].
    destruct s; [discriminate|].
    destruct b as [t|t| |t m2 e2].
    + discriminate.
    + destruct t; discriminate.
    + discriminate.
    + unfold percent in Hb. apply andb_true_iff in Hb as [Hb Hb100].
      apply andb_true_iff in Hb as [Hvb Hb0].
      destruct t; [discriminate|].
      destruct (le_hundred_mantissa m1 e1 Hva Ha100) as [p1 [-> Hm1]].
      destruct (le_hundred_mantissa m2 e2 Hvb Hb100) as [p2 [-> Hm2]].
      pose proof (rint_half_even_percent m1 p1 Hm1) as Hk1.
      pose proof (rint_half_even_percent m2 p2 Hm2) as Hk2.
      pose proof (rint_percent_mono m1 m2 p1 p2 Hva Hvb Hle) as Hmono.
      unfold round in *. change (10 ^ Z.of_N 2) with 100 in *. cbv zeta in *.
      destruct (rint_half_even (Zpos m1 * 100) (Zneg p1)) as [|k1|k1];
        [apply Hzero| |lia].
      destruct (rint_half_even (Zpos m2 * 100) (Zneg p2)) as [|k2|k2];
        [lia| |lia].
      apply (hundredth_mono k1 k2); lia.
Qed.

Lemma rounding_keeps_order_witness :
  percent f87_654321 = true /\
  percent f99_995 = true /\
  float_leb f87_654321 f99_995 = true /\
  float_leb f87_65 (float_of_Z 100) = true.
Proof.
  split; [vm_compute; reflexivity|]. split; [vm_compute; reflexivity|].
  split; [vm_compute; reflexivity|].
  assert (Ea : round f87_654321 2 = f87_65) by (vm_compute; reflexivity).
  assert (Eb : round f99_995 2 = float_of_Z 100) by (vm_compute; reflexivity).
  rewrite <- Ea, <- Eb.
  exact (rounding_keeps_order f87_654321 f99_995 eq_refl eq_refl eq_refl).
Defined.
